(** * train.py of pixel-cnn: multi-GPU training driver, shallow embedding

    The script builds a TensorFlow graph (per-device losses, gradients and
    sampling nodes, their aggregation on /gpu:0, the bits-per-dim nodes),
    then runs an epoch loop that feeds batches, decays the learning rate,
    and periodically samples images and writes files.

    Conventions of the embedding:
    - Python [int] arguments are [Z]; loop indices and list positions are [nat].
    - Floating-point scalars are idealised as exact rationals [Q]; numeric
      equalities are stated with [==] (Qeq).
    - numpy arrays of shape (batch, height, width, channel) are nested lists.
    - An indexing or shape error of Python/numpy is [None] in the pure
      pieces and a raised exception in the driver loop.
    - The network ([model_spec]), the loss, its gradient, the Adam update and
      the sampling op live in other modules; they are Section variables. *)

From Stdlib Require Import ZArith QArith Qpower Qfield Lia Lqa Ascii String DecimalString.
From Stdlib Require DecimalNat.
From stdpp Require Import ssreflect base option list.

Set Warnings "-rewrite-rw".

(** ** Command-line arguments (argparse block, lines 28-75) *)

Record Args := mkArgs {
  save_dir : string;
  train_data : string;
  save_interval : Z;
  load_params : bool;
  nr_resnet : Z;
  nr_filters : Z;
  nr_logistic_mix : Z;
  resnet_nonlinearity : string;
  class_conditional : bool;
  energy_distance : bool;
  learning_rate : Q;
  lr_decay : Q;
  batch_size : Z;
  init_batch_size : Z;
  dropout_p : Q;
  max_epochs : Z;
  nr_gpu : Z;
  polyak_decay : Q;
  num_samples : Z;
  seed : Z
}.

(** The defaults declared by the parser. *)
Definition default_args : Args := {|
  save_dir := "data";
  train_data := "/u/alitaiga/repositories/count-based-exploration/data/montezuma_color.h5";
  save_interval := 20;
  load_params := false;
  nr_resnet := 5;
  nr_filters := 160;
  nr_logistic_mix := 10;
  resnet_nonlinearity := "concat_elu";
  class_conditional := false;
  energy_distance := false;
  learning_rate := 1 # 1000;
  lr_decay := 999995 # 1000000;
  batch_size := 16;
  init_batch_size := 16;
  dropout_p := 1 # 2;
  max_epochs := 5000;
  nr_gpu := 1;
  polyak_decay := 9995 # 10000;
  num_samples := 1;
  seed := 1
|}.

(** [range(n)] and [range(a, b)] for Python ints. *)
Definition py_range (n : Z) : list nat := seq 0 (Z.to_nat n).
Definition py_range2 (a b : Z) : list nat := seq (Z.to_nat a) (Z.to_nat (b - a)).

(** [obs_shape = (32, 32, 3)] *)
Definition obs_shape : nat * nat * nat := (32, 32, 3)%nat.



(** A [for] loop whose body may raise: the state is threaded through the
    iterations and the first failure aborts the loop. *)
Fixpoint for_each {S A : Type} (body : A → S → option S) (l : list A) (s : S)
  : option S :=
  match l with
  | [] => Some s
  | a :: r => s' ← body a s; for_each body r s'
  end.

(** ** Loss and gradient aggregation on /gpu:0 (lines 140-145) *)

Section Aggregation.
(** [L] is the type of the loss nodes, [G] of the gradient nodes; [addL]
    and [addG] are the graph nodes built by [+]. Nothing is assumed of
    them, so the order of the additions is visible in the result. *)
Context {L G : Type} (addL : L → L → L) (addG : G → G → G).

(** [l[0] += l[i]] on a Python list of tensors. *)
Definition iadd_head (l : list L) (i : nat) : option (list L) :=
  a ← l !! 0%nat; b ← l !! i; Some (<[0%nat := addL a b]> l).

(** [grads[0][j] += grads[i][j]]; [grads[0]] is updated in place, so the
    outer list sees the new row. *)
Definition iadd_grad (i j : nat) (grads : list (list G))
  : option (list (list G)) :=
  g0 ← grads !! 0%nat; a ← g0 !! j;
  gi ← grads !! i; b ← gi !! j;
  Some (<[0%nat := <[j := addG a b]> g0]> grads).

(** Graph state touched by the loop: [loss_gen], [loss_gen_test], [grads]. *)
Definition agg_state : Type := list L * list L * list (list G).

(** Body of [for i in range(1, args.nr_gpu)]. *)
Definition aggregate_body (i : nat) (st : agg_state) : option agg_state :=
  let '(loss_gen, loss_gen_test, grads) := st in
  loss_gen' ← iadd_head loss_gen i;
  loss_gen_test' ← iadd_head loss_gen_test i;
  g0 ← grads !! 0%nat;
  grads' ← for_each (iadd_grad i) (seq 0 (length g0)) grads;
  Some (loss_gen', loss_gen_test', grads').

Definition aggregate (nr_gpu : Z) (st : agg_state) : option agg_state :=
  for_each aggregate_body (py_range2 1 nr_gpu) st.
End Aggregation.

(** Left-to-right sum of a non-empty list: [((x0 + x1) + x2) + ...]. *)
Definition sum_ascending {T : Type} (add : T → T → T) (xs : list T) : option T :=
  match xs with
  | [] => None
  | x :: r => Some (fold_left add r x)
  end.

(** The [j]-th gradient of every device, in device order. *)
Definition grad_column {G : Type} (j : nat) (grads : list (list G))
  : option (list G) :=
  mapM (λ g : list G, g !! j) grads.

(** Tensors as flat lists of scalars; [+] on same-shape tensors is
    elementwise. *)
Definition tensor_add {V : Type} (add : V → V → V) (a b : list V) : list V :=
  zip_with add a b.

(** The [k]-th scalar of every tensor of a list. *)
Definition scalar_column {V : Type} (k : nat) (ts : list (list V))
  : option (list V) :=
  mapM (λ t : list V, t !! k) ts.

(** ** Bits per dimension (lines 150-151) *)

Definition bits_per_dim (args : Args) (loss0 : Q) : Q :=
  loss0 / inject_Z (nr_gpu args * batch_size args).


(** ** Tensors, parameters and the session *)

(** A parameter (or gradient) tensor, flattened; a pixel is the channel
    axis, an image is indexed [y][x][c], a batch [b][y][x][c]. *)
Abbreviation tensor := (list Q) (only parsing).
(** [all_params], in the fixed order of [tf.trainable_variables()]. *)
Abbreviation params := (list (list Q)) (only parsing).

Abbreviation pixel := (list Q) (only parsing).
Abbreviation image := (list (list (list Q))) (only parsing).
Abbreviation tensor4 := (list (list (list (list Q)))) (only parsing).

(** [np.zeros((b, h, w, c))] *)
Definition np_zeros (b h w c : nat) : tensor4 :=
  replicate b (replicate h (replicate w (replicate c 0%Q))).

(** Shape test of an array against [(b, h, w, c)]. *)
Definition pixel_ok (c : nat) (p : pixel) : bool := bool_decide (length p = c).
Definition image_ok (h w c : nat) (im : image) : bool :=
  bool_decide (length im = h)
  && forallb (λ row, bool_decide (length row = w) && forallb (pixel_ok c) row) im.
Definition has_shape (b h w c : nat) (t : tensor4) : bool :=
  bool_decide (length t = b) && forallb (image_ok h w c) t.

(** ** Exponential moving average of the parameters (lines 111-114)

    [ema.apply(all_params)] keeps one shadow tensor per parameter and
    moves it by [shadow = decay * shadow + (1 - decay) * variable]. *)

Definition ema_scalar (decay s v : Q) : Q := (decay * s + (1 - decay) * v)%Q.
Definition ema_tensor (decay : Q) (s v : tensor) : tensor :=
  zip_with (ema_scalar decay) s v.
Definition ema_apply (decay : Q) (shadow live : params) : params :=
  zip_with (ema_tensor decay) shadow live.

(** [N] successive runs of the averaging op, the live values read by each
    run given in order. *)
Definition ema_run (decay : Q) (shadow0 : params) (lives : list params) : params :=
  fold_left (ema_apply decay) lives shadow0.

(** The same recurrence on one scalar cell. *)
Definition ema_scalar_run (decay s0 : Q) (vs : list Q) : Q :=
  fold_left (ema_scalar decay) vs s0.

(** Scalar [e] of parameter [p]. *)
Definition cell (p e : nat) (ps : params) : option Q := t ← ps !! p; t !! e.

(** Two parameter sets with the same number of tensors and the same sizes. *)
Definition mirrors (a b : params) : Prop := Forall2 (λ s v : tensor, length s = length v) a b.


(** ** The session: variables of the graph *)

(** Values held by the TensorFlow variables: the trainable parameters, their
    moving averages, the optimizer slots, and the number of [sess.run] calls
    so far (the position in the stream of the random ops). *)
Record Session {O : Type} := mkSession {
  live : params;
  shadow : params;
  opt_slots : O;
  tick : nat
}.
Arguments Session : clear implicits.
Arguments mkSession {O} _ _ _ _.

(** The [ema] keyword of a call of [model]. *)
Inductive ema_arg := ema_None | ema_obj.

(** Modelled from the spec: the variable getter of [pixel_cnn_pp.nn] is not
    in this file.  A call with [ema=None] (the train call) reads the live
    parameters, a call with [ema=ema] (the test call) reads the shadow
    parameters. *)
Definition params_view {O} (e : ema_arg) (s : Session O) : params :=
  match e with
  | ema_None => live s
  | ema_obj => shadow s
  end.

(** [model_opt] (line 104) *)
Record ModelOpt := mkModelOpt {
  opt_nr_resnet : Z;
  opt_nr_filters : Z;
  opt_nr_logistic_mix : Z;
  opt_resnet_nonlinearity : string;
  opt_energy_distance : bool
}.
Definition model_opt (args : Args) : ModelOpt :=
  {| opt_nr_resnet := nr_resnet args;
     opt_nr_filters := nr_filters args;
     opt_nr_logistic_mix := nr_logistic_mix args;
     opt_resnet_nonlinearity := resnet_nonlinearity args;
     opt_energy_distance := energy_distance args |}.

(** Pixel [(yi, xi)] of one image, and its assignment; [None] is numpy's
    IndexError. *)
Definition read_px (im : image) (yi xi : nat) : option pixel :=
  row ← im !! yi; row !! xi.
Definition write_px (im : image) (yi xi : nat) (p : pixel) : option image :=
  row ← im !! yi;
  if decide (xi < length row)%nat then Some (<[yi := <[xi := p]> row]> im)
  else None.

(** [x[:, yi, xi, :] = new[:, yi, xi, :]] for two arrays of one shape: a
    different batch length or channel count is numpy's ValueError. *)
Fixpoint assign_position (x new : tensor4) (yi xi : nat) : option tensor4 :=
  match x, new with
  | [], [] => Some []
  | im :: x', nim :: new' =>
      p ← read_px nim yi xi;
      old ← read_px im yi xi;
      if decide (length p = length old) then
        im' ← write_px im yi xi p;
        r ← assign_position x' new' yi xi;
        Some (im' :: r)
      else None
  | _, _ => None
  end.

(** ** Events, exceptions and the driver monad *)

(** What the script does to the outside world, in program order. *)
Inductive event :=
  | EvRestore (ckpt_file : string)          (* saver.restore(sess, ckpt_file) *)
  | EvInitializer                           (* sess.run(initializer) *)
  | EvInitPass (x : tensor4)                (* sess.run(init_pass, feed_dict) *)
  | EvTrain (lr : Q) (xs : list tensor4)    (* sess.run([bits_per_dim, optimizer], feed_dict) *)
  | EvSample                                (* one call of sample_from_model(sess) *)
  | EvSavefig (path : string)               (* plotting.plt.savefig(path) *)
  | EvSavez (path : string) (arrays : list tensor4)  (* np.savez(path, *arrays) *)
  | EvSaverSave (path : string).            (* saver.save(sess, path) *)

Inductive exn := ValueError | IndexError | StopIteration | ZeroDivisionError.

Inductive outcome (A : Type) :=
  | Returned (a : A)
  | Raised (e : exn).
Arguments Returned {A} _.
Arguments Raised {A} _.

(** A computation: the events it performed, then its value or the exception
    that ended it. *)
Definition prog (A : Type) : Type := list event * outcome A.

Definition ret {A} (a : A) : prog A := ([], Returned a).
Definition raise {A} (e : exn) : prog A := ([], Raised e).
Definition emit (e : event) : prog unit := ([e], Returned tt).
Definition bind {A B} (m : prog A) (f : A → prog B) : prog B :=
  match m with
  | (t, Returned a) => let '(t', r) := f a in (t ++ t', r)
  | (t, Raised e) => (t, Raised e)
  end.
(** A pure piece that failed raises [e]. *)
Definition lift {A} (e : exn) (o : option A) : prog A :=
  match o with
  | Some a => ret a
  | None => raise e
  end.

Declare Scope prog_scope.
Delimit Scope prog_scope with prog.
Notation "x <- m ;; k" := (bind m (λ x, k))
  (at level 100, m at next level, right associativity) : prog_scope.
Notation "m ;;; k" := (bind m (λ _, k))
  (at level 100, right associativity) : prog_scope.

Fixpoint for_prog {S A : Type} (body : A → S → prog S) (l : list A) (s : S)
  : prog S :=
  match l with
  | [] => ret s
  | a :: r => bind (body a s) (for_prog body r)
  end.

(** ** Strings of the file names *)

(** ['%d' % n] *)
Definition fmt_d (n : nat) : string := NilZero.string_of_uint (Nat.to_uint n).

Fixpoint ends_with_slash (s : string) : bool :=
  match s with
  | EmptyString => false
  | String c EmptyString => Ascii.eqb c "/"%char
  | String _ r => ends_with_slash r
  end.

(** [os.path.join(a, b)] for a relative [b]. *)
Definition path_join (a b : string) : string :=
  match a with
  | EmptyString => b
  | _ => if ends_with_slash a then (a ++ b)%string else (a ++ "/" ++ b)%string
  end.

(** ** Batches *)

(** The batches of one epoch of
    [DataStream(train_data, SequentialScheme(num_examples, batch_size))]:
    consecutive slices of [n] examples, the last one possibly shorter. *)
Fixpoint chunks {A : Type} (fuel n : nat) (l : list A) : list (list A) :=
  match fuel with
  | O => []
  | S f => match l with
           | [] => []
           | _ => take n l :: chunks f n (drop n l)
           end
  end.
Definition epoch_batches (n : Z) (data : tensor4) : list tensor4 :=
  if decide (n <= 0)%Z then [] else chunks (length data) (Z.to_nat n) data.

(** [np.cast[np.float32]((x - 127.5) / 127.5)] *)
Definition scale_scalar (v : Q) : Q := ((v - (1275 # 10)) / (1275 # 10))%Q.
Definition scale_input (x : tensor4) : tensor4 :=
  map (map (map (map scale_scalar))) x.

(** [np.split(x, n)] along the batch axis. *)
Definition np_split (x : tensor4) (n : Z) : outcome (list tensor4) :=
  if decide (n = 0)%Z then Raised ZeroDivisionError
  else if decide (Z.of_nat (length x) `mod` n = 0)%Z then
    if decide (n < 0)%Z then Raised ValueError
    else
      let sz := (length x / Z.to_nat n)%nat in
      Returned (map (λ k, take sz (drop (k * sz) x)) (seq 0 (Z.to_nat n)))
  else Raised ValueError.

(** A value fed to a placeholder of shape [(b,) + obs_shape] must have that
    shape. *)
Definition feed_ok (b : Z) (x : tensor4) : bool :=
  let '(h, w, c) := obs_shape in
  bool_decide (0 <= b)%Z && has_shape (Z.to_nat b) h w c x.

(** ** Raster positions *)

(** The positions in the order of the two loops
    [for yi in range(h): for xi in range(w)]. *)
Definition raster (h w : nat) : list (nat * nat) :=
  flat_map (λ yi, map (pair yi) (seq 0 w)) (seq 0 h).

(** Row-major rank of a position in a canvas of width [w]. *)
Definition raster_rank (w : nat) (p : nat * nat) : nat := (p.1 * w + p.2)%nat.

(** Pixel [(yi, xi)] of image [b] of a batch. *)
Definition pixel_at (t : tensor4) (b yi xi : nat) : option pixel :=
  im ← t !! b; read_px im yi xi.

(** Pixel [p] of image [bi] of the canvas of device [i]. *)
Definition canvas_pixel (x_gen : list tensor4) (i bi : nat) (p : nat * nat)
  : option pixel :=
  x ← x_gen !! i; pixel_at x bi p.1 p.2.

Section Program.
(** Collaborators defined outside train.py. [D] is the type of the
    distribution parameters returned by the network, [O] the optimizer
    slots. Random ops are functions of the device index and of the run
    counter. *)
Context {D O : Type}.
(** [model_spec(x, h, init, ema, dropout_p, **model_opt)] with [h = None],
    on the parameter values its getter returns. *)
Variable model_spec : params → tensor4 → bool → Q → ModelOpt → nat → D.
(** [nn.sample_from_discretized_mix_logistic(out, nr_logistic_mix)] *)
Variable sample_from_discretized_mix_logistic : D → Z → nat → nat → tensor4.
(** [nn.discretized_mix_logistic_loss(x, out)] *)
Variable loss_fun : tensor4 → D → Q.
(** [tf.gradients(loss, all_params)] at the current parameter values. *)
Variable tf_gradients : (params → Q) → params → list tensor.
(** [nn.adam_updates(params, grads, lr, mom1, mom2)] *)
Variable adam_updates : O → params → list tensor → Q → Q → Q → O * params.
(** Values given by [tf.global_variables_initializer()]. *)
Variable initial_values : O * params.
(** Effect of the init pass ([init=True]) on the parameters. *)
Variable data_dependent_init : params → tensor4 → Q → ModelOpt → params.
(** What [saver.restore] reads from a checkpoint file. *)
Variable checkpoint : string → Session O.

Variable args : Args.

(** [model = tf.make_template('model', model_spec)], called on device
    input [x]. *)
Definition model (s : Session O) (x : tensor4) (init : bool) (e : ema_arg)
    (dropout : Q) : D :=
  model_spec (params_view e s) x init dropout (model_opt args) (tick s).

(** Lines 124-125: [loss_gen[i]]. *)
Definition loss_gen_node (s : Session O) (x : tensor4) : Q :=
  loss_fun x (model s x false ema_None (dropout_p args)).

(** Line 128: [grads[i]]. *)
Definition grads_node (s : Session O) (x : tensor4) : list tensor :=
  tf_gradients
    (λ p, loss_fun x (model_spec p x false (dropout_p args) (model_opt args) (tick s)))
    (live s).

(** Lines 131-132: [loss_gen_test[i]]. *)
Definition loss_gen_test_node (s : Session O) (x : tensor4) : Q :=
  loss_fun x (model s x false ema_obj 0).

(** Lines 135-136: [new_x_gen[i]]. *)
Definition new_x_gen_node (i : nat) (s : Session O) (x : tensor4) : tensor4 :=
  sample_from_discretized_mix_logistic
    (model s x false ema_None 0) (nr_logistic_mix args) i (tick s).

(** [sess.run(new_x_gen, {xs[i]: x_gen[i] ...})]: one array per device;
    the run advances the random stream. *)
Definition run_new_x_gen (s : Session O) (x_gen : list tensor4)
  : list tensor4 * Session O :=
  (imap (λ i x, new_x_gen_node i s x) x_gen,
   mkSession (live s) (shadow s) (opt_slots s) (S (tick s))).

(** Line 159-160: [for i in range(nr_gpu): x_gen[i][:,yi,xi,:] = ...]. *)
Definition commit_device (new_x_gen_np : list tensor4) (yi xi : nat)
    (i : nat) (x_gen : list tensor4) : option (list tensor4) :=
  x ← x_gen !! i; n ← new_x_gen_np !! i;
  x' ← assign_position x n yi xi;
  Some (<[i := x']> x_gen).

(** Body of the two position loops (lines 158-160). *)
Definition sample_step (yi xi : nat) (st : list tensor4 * Session O)
  : option (list tensor4 * Session O) :=
  let '(x_gen, s) := st in
  let '(new_x_gen_np, s') := run_new_x_gen s x_gen in
  x_gen' ← for_each (commit_device new_x_gen_np yi xi) (py_range (nr_gpu args)) x_gen;
  Some (x_gen', s').

(** Line 155: the initial canvases, one per device. *)
Definition initial_canvas (shape : nat * nat * nat) : option (list tensor4) :=
  let '(h, w, c) := shape in
  if decide (batch_size args < 0)%Z then None
  else Some (replicate (Z.to_nat (nr_gpu args))
               (np_zeros (Z.to_nat (batch_size args)) h w c)).

(** Lines 156-160: the raster loops. *)
Definition sample_loop (shape : nat * nat * nat) (st : list tensor4 * Session O)
  : option (list tensor4 * Session O) :=
  let '(h, w, _) := shape in
  for_each (λ yi, for_each (λ xi, sample_step yi xi) (seq 0 w)) (seq 0 h) st.

(** [np.concatenate(arrays, axis=0)]; an empty list is a ValueError. *)
Definition np_concatenate (arrays : list tensor4) : option tensor4 :=
  match arrays with
  | [] => None
  | _ => Some (concat arrays)
  end.

(** [sample_from_model(sess)] for an observation shape. *)
Definition sample_from_model_shape (shape : nat * nat * nat) (s : Session O)
  : option (tensor4 * Session O) :=
  x_gen ← initial_canvas shape;
  '(x_gen', s') ← sample_loop shape (x_gen, s);
  r ← np_concatenate x_gen';
  Some (r, s').

(** [sample_from_model(sess)] (lines 154-161). *)
Definition sample_from_model (s : Session O) : option (tensor4 * Session O) :=
  sample_from_model_shape obs_shape s.

(** The sampling node and the transition as the specification words them:
    the network reads the shadow parameters. *)
Definition spec_new_x_gen_node (i : nat) (s : Session O) (x : tensor4) : tensor4 :=
  sample_from_discretized_mix_logistic
    (model s x false ema_obj 0) (nr_logistic_mix args) i (tick s).

Definition spec_sample_step (yi xi : nat) (st : list tensor4 * Session O)
  : option (list tensor4 * Session O) :=
  let '(x_gen, s) := st in
  let new_x_gen_np := imap (λ i x, spec_new_x_gen_node i s x) x_gen in
  x_gen' ← for_each (commit_device new_x_gen_np yi xi) (py_range (nr_gpu args)) x_gen;
  Some (x_gen', mkSession (live s) (shadow s) (opt_slots s) (S (tick s))).

(** ** The training step *)

(** [sess.run([bits_per_dim, optimizer], feed_dict)]: the per-device
    nodes, their aggregation, the Adam step and the averaging op.
    [tf.group] does not order the last two; the averaging op is taken to
    read the parameters after the Adam step. *)
Definition run_train (s : Session O) (xs : list tensor4) (lr : Q)
  : option (Q * Session O) :=
  '(loss_gen, _, grads) ←
     aggregate Qplus (tensor_add Qplus) (nr_gpu args)
       (map (loss_gen_node s) xs, map (loss_gen_test_node s) xs,
        map (grads_node s) xs);
  l0 ← loss_gen !! 0%nat;
  g0 ← grads !! 0%nat;
  let '(o', live') := adam_updates (opt_slots s) (live s) g0 lr (95 # 100) (9995 # 10000) in
  Some (bits_per_dim args l0,
        mkSession live' (ema_apply (polyak_decay args) (shadow s) live') o'
          (S (tick s))).

(** ** The driver (lines 168-229) *)

Inductive feed_dict :=
  | FeedInit (x : tensor4)
  | FeedTrain (xs : list tensor4).

(** [make_feed_dict(data, init)] *)
Definition make_feed_dict (data : tensor4) (init : bool) : prog feed_dict :=
  let x := scale_input data in
  if init then ret (FeedInit x)
  else match np_split x (nr_gpu args) with
       | Returned xs => ret (FeedTrain xs)
       | Raised e => raise e
       end.

(** The checkpoint name of lines 191 and 228.  The source writes the middle
    piece as ['Montezuma + '.ckpt'], the closing quote of [Montezuma]
    displaced behind the [+]; the name is read as the concatenation of
    [save_dir], [/params_], [Montezuma] and [.ckpt], and likewise for the
    [test_bpd_] file of line 229. *)
Definition ckpt_file : string := (save_dir args ++ "/params_" ++ "Montezuma" ++ ".ckpt")%string.

(** Loop state of the driver: the session, [lr], [train_losses]. *)
Definition loop_state : Type := Session O * Q * list Q.

(** Lines 188-199: the [epoch == 0] block; returns the rest of the
    iterator. *)
Definition init_block (epoch : nat) (iterator : list tensor4) (s : Session O)
  : prog (list tensor4 * Session O) :=
  if decide (epoch = 0%nat) then
    if load_params args then
      (emit (EvRestore ckpt_file);;;
       ret (iterator, checkpoint ckpt_file))%prog
    else
      (emit EvInitializer;;;
       let s1 := mkSession (initial_values.2) (initial_values.2) (initial_values.1) (S (tick s)) in
       match iterator with
       | [] => raise StopIteration
       | d :: rest =>
           fd <- make_feed_dict d true;;
           match fd with
           | FeedInit x =>
               if feed_ok (init_batch_size args) x then
                 emit (EvInitPass x);;;
                 ret (rest,
                      mkSession (data_dependent_init (live s1) x (dropout_p args) (model_opt args))
                        (shadow s1) (opt_slots s1) (S (tick s1)))
               else raise ValueError
           | FeedTrain _ => raise ValueError
           end
       end)%prog
  else ret (iterator, s).

(** Lines 203-209: one batch of the training loop. *)
Definition train_batch (d : tensor4) (st : loop_state) : prog loop_state :=
  let '(s, lr, train_losses) := st in
  (fd <- make_feed_dict d false;;
   let lr' := (lr * lr_decay args)%Q in
   match fd with
   | FeedTrain xs =>
       if forallb (feed_ok (batch_size args)) xs then
         emit (EvTrain lr' xs);;;
         r1 <- lift IndexError (run_train s xs lr');;
         let '(l, s') := r1 in
         ret (s', lr', train_losses ++ [l])
       else raise ValueError
   | FeedInit _ => raise ValueError
   end)%prog.

(** Lines 219-220: [for i in range(num_samples): sample_x.append(...)]. *)
Definition sample_once (_ : nat) (st : list tensor4 * Session O)
  : prog (list tensor4 * Session O) :=
  let '(sample_x, s) := st in
  (emit EvSample;;;
   r2 <- lift ValueError (sample_from_model s);;
   let '(x, s') := r2 in
   ret (sample_x ++ [x], s'))%prog.


(** Lines 216-229: the save block. *)
Definition save_block (epoch : nat) (s : Session O) : prog (Session O) :=
  if decide (save_interval args = 0)%Z then raise ZeroDivisionError
  else if decide (Z.of_nat epoch `mod` save_interval args = 0)%Z then
    (r3 <- for_prog sample_once (py_range (num_samples args)) ([], s);;
     let '(sample_x, s') := r3 in
     sample_x' <- lift ValueError (np_concatenate sample_x);;
     emit (EvSavefig (path_join (save_dir args) ("Montezuma_sample" ++ fmt_d epoch ++ ".png")%string));;;
     emit (EvSavez (path_join (save_dir args) ("Montezuma_sample" ++ fmt_d epoch ++ ".npz")%string) [sample_x']);;;
     emit (EvSaverSave ckpt_file);;;
     emit (EvSavez (save_dir args ++ "/test_bpd_" ++ "Montezuma" ++ ".npz")%string []);;;
     ret s')%prog
  else ret s.

(** Body of [for epoch in range(args.max_epochs)]. *)
Definition epoch_body (data : tensor4) (epoch : nat) (st : Session O * Q)
  : prog (Session O * Q) :=
  let '(s, lr) := st in
  (r4 <- init_block epoch (epoch_batches (batch_size args) data) s;;
   let '(iterator, s1) := r4 in
   r5 <- for_prog train_batch iterator (s1, lr, []);;
   let '(s2, lr', _) := r5 in
   s3 <- save_block epoch s2;;
   ret (s3, lr'))%prog.

(** Graph construction (lines 95-151) fails on a negative placeholder
    dimension and on [grads[0]] when there is no device. *)
Definition build_graph : prog unit :=
  if decide (init_batch_size args < 0 ∨ batch_size args < 0)%Z then raise ValueError
  else if decide (nr_gpu args <= 0)%Z then raise IndexError
  else ret tt.

(** The whole script on a training set; [s0] is the fresh session. *)
Definition train_py (data : tensor4) (s0 : Session O) : prog (Session O * Q) :=
  (build_graph;;;
   for_prog (epoch_body data) (py_range (max_epochs args)) (s0, learning_rate args))%prog.
End Program.

(** ** Reading a trace *)

(** [lr] after [n] executions of [lr *= args.lr_decay]. *)
Definition lr_after (lr0 decay : Q) (n : nat) : Q :=
  Nat.iter n (λ lr, (lr * decay)%Q) lr0.

(** The learning rates fed to the optimizer runs, in order. *)
Definition train_lrs (t : list event) : list Q :=
  omap (λ e, match e with EvTrain lr _ => Some lr | _ => None end) t.

Definition is_train (e : event) : bool :=
  match e with EvTrain _ _ => true | _ => false end.

(** Events that write a file. *)
Definition is_file_write (e : event) : bool :=
  match e with EvSavefig _ | EvSavez _ _ | EvSaverSave _ => true | _ => false end.



(** ** Configurations used in the examples *)

(** The default arguments with another save directory, save interval,
    restore flag, batch sizes, epoch count, device count and sample count. *)
Definition run_args (dir : string) (interval : Z) (restore : bool)
    (batch init_batch epochs gpus samples : Z) : Args :=
  {| save_dir := dir;
     train_data := train_data default_args;
     save_interval := interval;
     load_params := restore;
     nr_resnet := nr_resnet default_args;
     nr_filters := nr_filters default_args;
     nr_logistic_mix := nr_logistic_mix default_args;
     resnet_nonlinearity := resnet_nonlinearity default_args;
     class_conditional := class_conditional default_args;
     energy_distance := energy_distance default_args;
     learning_rate := learning_rate default_args;
     lr_decay := lr_decay default_args;
     batch_size := batch;
     init_batch_size := init_batch;
     dropout_p := dropout_p default_args;
     max_epochs := epochs;
     nr_gpu := gpus;
     polyak_decay := polyak_decay default_args;
     num_samples := samples;
     seed := seed default_args |}.

(** Two devices, batch size 4. *)
Definition scenario_args : Args := run_args "data" 20 false 4 4 1 2 1.
(** One device, batch size 1. *)
Definition one_device_args : Args := run_args "data" 20 false 1 1 1 1 1.
(** Two devices, batch size 2. *)
Definition two_device_args : Args := run_args "data" 20 false 2 2 1 2 1.
(** One device, batch size 2, two epochs. *)
Definition two_epoch_args : Args := run_args "data" 20 false 2 2 2 1 1.
(** One device, batch size 2, init batch size 3. *)
Definition mismatch_args : Args := run_args "data" 20 false 2 3 1 1 1.
(** One device, batch size 1, save interval 0. *)
Definition no_save_args : Args := run_args "data" 0 false 1 1 1 1 1.
(** No device. *)
Definition no_device_args : Args := run_args "data" 20 false 1 1 1 0 1.

(** A stand-in network and sampling op for the examples: the distribution
    is the first scalar of the parameters the network was given, together
    with the input, and the sample paints every scalar of the input's shape
    with that value. *)
Definition stub_model_spec (p : list (list Q)) (x : list (list (list (list Q))))
    (_ : bool) (_ : Q) (_ : ModelOpt) (_ : nat) : Q * list (list (list (list Q))) :=
  (default 0%Q (cell 0 0 p), x).
Definition stub_sample (d : Q * list (list (list (list Q)))) (_ : Z) (_ _ : nat)
  : list (list (list (list Q))) :=
  map (map (map (map (λ _ : Q, d.1)))) d.2.
Definition stub_loss (_ : list (list (list (list Q))))
    (_ : Q * list (list (list (list Q)))) : Q := 0%Q.
Definition stub_gradients (_ : list (list Q) → Q) (p : list (list Q)) : list (list Q) := p.
Definition stub_adam (o : unit) (p _ : list (list Q)) (_ _ _ : Q)
  : unit * list (list Q) := (o, p).
Definition stub_initial : unit * list (list Q) := (tt, [[1%Q]]).
Definition stub_init (p : list (list Q)) (_ : list (list (list (list Q))))
    (_ : Q) (_ : ModelOpt) : list (list Q) := p.
Definition stub_checkpoint (_ : string) : Session unit :=
  mkSession [[1%Q]] [[2%Q]] tt 0.

(** A session whose live parameter is 1 and whose shadow parameter is 2. *)
Definition stub_session : Session unit := mkSession [[1%Q]] [[2%Q]] tt 0.

(** The script on the stand-ins. *)
Definition stub_train_py (args : Args) (data : list (list (list (list Q))))
  : prog (Session unit * Q) :=
  train_py stub_model_spec stub_sample stub_loss stub_gradients stub_adam
    stub_initial stub_init stub_checkpoint args data stub_session.

(** [n] training images of the observation shape, all zero. *)
Definition blank_images (n : nat) : list (list (list (list Q))) :=
  np_zeros n obs_shape.1.1 obs_shape.1.2 obs_shape.2.

(** * Properties *)

(** ** Loops *)

Lemma for_each_app {S A} (body : A → S → option S) (l1 l2 : list A) (s : S) :
  for_each body (l1 ++ l2) s = for_each body l1 s ≫= for_each body l2.
Proof.
  revert s. induction l1 as [|a l1 IH]; intros s; simpl; [done|].
  destruct (body a s) as [s'|]; simpl; [apply IH|done].
Qed.

Lemma for_each_map {S A B} (g : A → B) (body : B → S → option S)
    (l : list A) (s : S) :
  for_each body (map g l) s = for_each (λ a, body (g a)) l s.
Proof.
  revert s. induction l as [|a l IH]; intros s; simpl; [done|].
  destruct (body (g a) s); simpl; [apply IH|done].
Qed.

(** Two nested loops are one loop over the pairs in lexicographic order. *)
Lemma for_each_nested {S} (F : nat → nat → S → option S) (ys xs : list nat) (s : S) :
  for_each (λ y, for_each (λ x, F y x) xs) ys s
  = for_each (λ p, F p.1 p.2) (flat_map (λ y, map (pair y) xs) ys) s.
Proof.
  revert s. induction ys as [|y ys IH]; intros s; simpl; [done|].
  rewrite for_each_app for_each_map /=.
  destruct (for_each _ xs s); simpl; [apply IH|done].
Qed.

(** ** Raster order *)

Lemma raster_succ (h w : nat) :
  raster (S h) w = raster h w ++ map (pair h) (seq 0 w).
Proof.
  unfold raster. rewrite seq_S flat_map_app /=. by rewrite app_nil_r.
Qed.

(** The [k]-th position of the scan has row-major rank [k]. *)
Lemma raster_ranks (h w : nat) :
  map (raster_rank w) (raster h w) = seq 0 (h * w).
Proof.
  induction h as [|h IH]; [done|].
  rewrite raster_succ map_app IH.
  replace (S h * w)%nat with (h * w + w)%nat by lia.
  rewrite seq_app /=. f_equal.
  rewrite map_map. unfold raster_rank. simpl.
  transitivity (Nat.add (h * w) <$> seq 0 w); [done|].
  rewrite fmap_add_seq. f_equal. lia.
Qed.

Lemma raster_elem (h w yi xi : nat) :
  (yi, xi) ∈ raster h w ↔ (yi < h)%nat ∧ (xi < w)%nat.
Proof.
  unfold raster. rewrite list_elem_of_In in_flat_map. split.
  - intros (y & Hy%in_seq & Hp%in_map_iff).
    destruct Hp as (x & [= <- <-] & Hx%in_seq). lia.
  - intros [Hy Hx]. exists yi. split; [apply in_seq; lia|].
    apply in_map_iff. exists xi. split; [done|]. apply in_seq. lia.
Qed.

Lemma raster_NoDup (h w : nat) : NoDup (raster h w).
Proof.
  apply (NoDup_fmap_1 (raster_rank w)).
  change (NoDup (map (raster_rank w) (raster h w))).
  rewrite raster_ranks. apply NoDup_seq.
Qed.

(** ** Aggregation *)

Section AggregationFacts.
Context {L G : Type} (addL : L → L → L) (addG : G → G → G).

Lemma iadd_grad_spec (i j : nat) (grads : list (list G)) (g0 gi : list G) (a b : G) :
  grads !! 0%nat = Some g0 → g0 !! j = Some a →
  grads !! i = Some gi → gi !! j = Some b →
  iadd_grad addG i j grads = Some (<[0%nat := <[j := addG a b]> g0]> grads).
Proof. intros H0 Ha Hi Hb. unfold iadd_grad. by rewrite H0 /= Ha /= Hi /= Hb. Qed.

(** The inner loop over [j] adds row [i] to row [0], entry by entry. *)
Lemma iadd_grad_loop (i : nat) (gi : list G) (n : nat) :
  ∀ (j : nat) (grads : list (list G)) (g0 : list G),
    i ≠ 0%nat → grads !! 0%nat = Some g0 → grads !! i = Some gi →
    (j + n ≤ length g0)%nat → (j + n ≤ length gi)%nat →
    ∃ row, for_each (iadd_grad addG i) (seq j n) grads = Some (<[0%nat := row]> grads)
         ∧ length row = length g0
         ∧ ∀ k, row !! k =
                if decide (j ≤ k < j + n)%nat then (a ← g0 !! k; b ← gi !! k; Some (addG a b))
                else g0 !! k.
Proof.
  induction n as [|n IH]; intros j grads g0 Hi H0 Hgi Hl0 Hli.
  - exists g0. simpl. split; [by rewrite list_insert_id|]. split; [done|].
    intros k. case_decide; [lia|done].
  - destruct (lookup_lt_is_Some_2 g0 j) as [a Ha]; [lia|].
    destruct (lookup_lt_is_Some_2 gi j) as [b Hb]; [lia|].
    cbn [seq for_each]. rewrite (iadd_grad_spec i j grads g0 gi a b) //=.
    set (g0' := <[j := addG a b]> g0).
    destruct (IH (S j) (<[0%nat := g0']> grads) g0') as (row & Hrun & Hlen & Hrow).
    + done.
    + apply list_lookup_insert_eq. by eapply lookup_lt_Some.
    + by rewrite list_lookup_insert_ne.
    + rewrite length_insert. lia.
    + lia.
    + exists row. rewrite Hrun list_insert_insert_eq. split; [done|].
      split; [by rewrite Hlen length_insert|].
      intros k. rewrite Hrow. subst g0'.
      destruct (decide (k = j)) as [->|Hne].
      * rewrite (decide_False (P := (S j ≤ j < S j + n)%nat)); [|lia].
        rewrite (decide_True (P := (j ≤ j < j + S n)%nat)); [|lia].
        rewrite list_lookup_insert_eq; [|lia]. by rewrite Ha /= Hb.
      * rewrite list_lookup_insert_ne; [|done].
        repeat case_decide; try lia; done.
Qed.

Lemma iadd_grad_row (i : nat) (grads : list (list G)) (g0 gi : list G) :
  i ≠ 0%nat → grads !! 0%nat = Some g0 → grads !! i = Some gi →
  length gi = length g0 →
  for_each (iadd_grad addG i) (seq 0 (length g0)) grads
  = Some (<[0%nat := zip_with addG g0 gi]> grads).
Proof.
  intros Hi H0 Hgi Hlen.
  destruct (iadd_grad_loop i gi (length g0) 0 grads g0) as (row & -> & Hl & Hrow);
    [done..|lia|lia|].
  do 2 f_equal. apply list_eq. intros k. rewrite Hrow lookup_zip_with.
  case_decide as Hk.
  - destruct (g0 !! k), (gi !! k); done.
  - rewrite (lookup_ge_None_2 g0 k); [done|lia].
Qed.

Lemma iadd_head_spec (l : list L) (i : nat) (a b : L) :
  l !! 0%nat = Some a → l !! i = Some b →
  iadd_head addL l i = Some (<[0%nat := addL a b]> l).
Proof. intros Ha Hb. unfold iadd_head. by rewrite Ha /= Hb. Qed.

(** The device loop from device [i] on: the heads become left folds over
    the next [n] devices. *)
Lemma aggregate_loop (P : nat) (n : nat) :
  ∀ (i : nat) (lg lgt : list L) (gs : list (list G)) (a at' : L) (g0 : list G),
    (1 ≤ i)%nat →
    (i + n ≤ length lg)%nat → (i + n ≤ length lgt)%nat → (i + n ≤ length gs)%nat →
    lg !! 0%nat = Some a → lgt !! 0%nat = Some at' → gs !! 0%nat = Some g0 →
    length g0 = P →
    Forall (λ g : list G, length g = P) (drop i gs) →
    for_each (aggregate_body addL addG) (seq i n) (lg, lgt, gs)
    = Some (<[0%nat := fold_left addL (take n (drop i lg)) a]> lg,
            <[0%nat := fold_left addL (take n (drop i lgt)) at']> lgt,
            <[0%nat := fold_left (zip_with addG) (take n (drop i gs)) g0]> gs).
Proof.
  induction n as [|n IH]; intros i lg lgt gs a at' g0 Hi Hlg Hlgt Hgs Ha Hat Hg0 HP Hall.
  - simpl. by rewrite !list_insert_id.
  - destruct (lookup_lt_is_Some_2 lg i) as [b Hb]; [lia|].
    destruct (lookup_lt_is_Some_2 lgt i) as [bt Hbt]; [lia|].
    destruct (lookup_lt_is_Some_2 gs i) as [gi Hgi]; [lia|].
    assert (length gi = P) as Hgil.
    { rewrite Forall_lookup in Hall. apply (Hall 0%nat).
      by rewrite lookup_drop Nat.add_0_r. }
    assert (aggregate_body addL addG i (lg, lgt, gs)
            = Some (<[0%nat := addL a b]> lg, <[0%nat := addL at' bt]> lgt,
                    <[0%nat := zip_with addG g0 gi]> gs)) as Hbody.
    { unfold aggregate_body.
      rewrite (iadd_head_spec lg i a b) // (iadd_head_spec lgt i at' bt) //=.
      rewrite Hg0 /= (iadd_grad_row i gs g0 gi) //; [lia|congruence]. }
    cbn [seq for_each]. rewrite Hbody /=.
    rewrite (IH (S i) _ _ _ (addL a b) (addL at' bt) (zip_with addG g0 gi)).
    + rewrite !list_insert_insert_eq !drop_insert_lt; [|lia..].
      by rewrite (drop_S lg b i) // (drop_S lgt bt i) // (drop_S gs gi i).
    + lia.
    + rewrite length_insert. lia.
    + rewrite length_insert. lia.
    + rewrite length_insert. lia.
    + apply list_lookup_insert_eq. lia.
    + apply list_lookup_insert_eq. lia.
    + apply list_lookup_insert_eq. lia.
    + rewrite length_zip_with. lia.
    + rewrite drop_insert_lt; [|lia].
      rewrite (drop_S gs gi i) // in Hall. by inversion Hall.
Qed.
End AggregationFacts.

(** Entry [k] of a left fold of elementwise additions is the left fold of
    the entries [k]. *)
Lemma fold_zip_with_lookup {V : Type} (add : V → V → V) (k : nat) (ts : list (list V)) :
  ∀ (t0 : list V) (v0 : V) (vs : list V),
    t0 !! k = Some v0 → mapM (λ t : list V, t !! k) ts = Some vs →
    fold_left (zip_with add) ts t0 !! k = Some (fold_left add vs v0).
Proof.
  induction ts as [|t ts IH]; intros t0 v0 vs H0 Hm; simpl in *.
  - injection Hm as <-. done.
  - destruct (t !! k) as [v|] eqn:Hv; simpl in Hm; [|done].
    destruct (mapM _ ts) as [vs'|] eqn:Hvs; simpl in Hm; [|done].
    injection Hm as <-. simpl. eapply IH; [|done].
    by rewrite lookup_zip_with H0 /= Hv.
Qed.

Lemma sum_ascending_column {V : Type} (add : V → V → V) (k : nat)
    (ts : list (list V)) (vs : list V) (t : list V) :
  mapM (λ t : list V, t !! k) ts = Some vs →
  sum_ascending (zip_with add) ts = Some t →
  t !! k = sum_ascending add vs.
Proof.
  destruct ts as [|t0 ts]; simpl; [done|].
  intros Hm [= <-].
  destruct (t0 !! k) as [v0|] eqn:H0; simpl in Hm; [|done].
  destruct (mapM _ ts) as [vs'|] eqn:Hvs; simpl in Hm; [|done].
  injection Hm as <-. simpl. by apply fold_zip_with_lookup.
Qed.

Lemma length_fold_zip_with {V : Type} (f : V → V → V) (P : nat) (ts : list (list V)) :
  ∀ t0 : list V, length t0 = P → Forall (λ t : list V, length t = P) ts →
  length (fold_left (zip_with f) ts t0) = P.
Proof.
  induction ts as [|t ts IH]; intros t0 H0 Hall; simpl; [done|].
  inversion Hall; subst. apply IH; [|done]. rewrite length_zip_with. lia.
Qed.

Lemma sum_ascending_head {T : Type} (add : T → T → T) (x : T) (l : list T) :
  l !! 0%nat = Some x → sum_ascending add l = Some (fold_left add (drop 1 l) x).
Proof. destruct l as [|y l]; [done|]. by intros [= ->]. Qed.

(** C2. For every device count [D >= 1] and per-device losses and gradient
    lists of one length [P], the aggregation loop returns; the aggregated
    losses [loss_gen[0]] and [loss_gen_test[0]] are the sums of the
    per-device losses taken left to right in ascending device order; every
    aggregated gradient [grads[0][j]] is the sum, in the same order, of the
    devices' gradients of parameter [j]; and that sum is elementwise: its
    scalar [k] is the left-to-right sum of the devices' scalars [k]. *)
Theorem aggregate_sums_in_device_order {L V : Type}
    (addL : L → L → L) (add : V → V → V) (D : Z)
    (loss_gen loss_gen_test : list L) (grads : list (list (list V))) (P : nat) :
  (1 ≤ D)%Z →
  length loss_gen = Z.to_nat D → length loss_gen_test = Z.to_nat D →
  length grads = Z.to_nat D →
  Forall (λ g : list (list V), length g = P) grads →
  ∃ lg lgt gs total total_test g0,
    aggregate addL (tensor_add add) D (loss_gen, loss_gen_test, grads)
      = Some (lg, lgt, gs)
    ∧ lg !! 0%nat = Some total ∧ sum_ascending addL loss_gen = Some total
    ∧ lgt !! 0%nat = Some total_test
    ∧ sum_ascending addL loss_gen_test = Some total_test
    ∧ gs !! 0%nat = Some g0 ∧ length g0 = P
    ∧ ∀ j, (j < P)%nat →
        ∃ col t, grad_column j grads = Some col
          ∧ sum_ascending (tensor_add add) col = Some t
          ∧ g0 !! j = Some t
          ∧ ∀ k ks, scalar_column k col = Some ks →
                    t !! k = sum_ascending add ks.
Proof.
  intros HD Hlg Hlgt Hgs Hall.
  destruct (lookup_lt_is_Some_2 loss_gen 0) as [a Ha]; [lia|].
  destruct (lookup_lt_is_Some_2 loss_gen_test 0) as [at' Hat]; [lia|].
  destruct (lookup_lt_is_Some_2 grads 0) as [g00 Hg00]; [lia|].
  assert (length g00 = P) as HP.
  { rewrite Forall_lookup in Hall. by apply (Hall 0%nat). }
  pose proof (aggregate_loop addL (tensor_add add) P (Z.to_nat (D - 1)) 1
                loss_gen loss_gen_test grads a at' g00) as Hrun.
  unfold aggregate, py_range2.
  replace (Z.to_nat 1) with 1%nat by lia.
  rewrite Hrun; [|lia|lia|lia|lia|done|done|done|done|by apply Forall_drop].
  rewrite !take_ge; [|rewrite length_drop; lia..].
  set (g0 := fold_left (zip_with (tensor_add add)) (drop 1 grads) g00).
  assert (length g0 = P) as Hg0len.
  { apply length_fold_zip_with; [done|by apply Forall_drop]. }
  eexists _, _, _, _, _, g0. split; [done|].
  split; [apply list_lookup_insert_eq; lia|].
  split; [by apply sum_ascending_head|].
  split; [apply list_lookup_insert_eq; lia|].
  split; [by apply sum_ascending_head|].
  split; [apply list_lookup_insert_eq; lia|].
  split; [done|].
  intros j Hj.
  assert (is_Some (grad_column j grads)) as [col Hcol].
  { apply mapM_is_Some. eapply Forall_impl; [exact Hall|].
    intros g Hg. apply lookup_lt_is_Some_2. simpl in Hg. lia. }
  destruct grads as [|g00' rest]; [done|]. injection Hg00 as ->.
  unfold grad_column in Hcol. simpl in Hcol.
  destruct (g00 !! j) as [t0|] eqn:Ht0; simpl in Hcol; [|done].
  destruct (mapM _ rest) as [col'|] eqn:Hcol'; simpl in Hcol; [|done].
  injection Hcol as <-.
  exists (t0 :: col'), (fold_left (tensor_add add) col' t0).
  split; [unfold grad_column; simpl; by rewrite Ht0 /= Hcol'|].
  split; [done|].
  split.
  { subst g0. simpl. rewrite drop_0. by apply fold_zip_with_lookup. }
  intros k ks Hks. by eapply sum_ascending_column.
Qed.

(** The aggregation theorem at three devices with two parameters each. *)
Lemma aggregate_sums_in_device_order_witness :
  ∃ lg lgt gs total total_test g0,
    aggregate Z.add (tensor_add Z.add) 3
      ([1; 2; 4]%Z, [10; 20; 40]%Z,
       [[[1; 2]; [3]]; [[10; 20]; [30]]; [[100; 200]; [300]]]%Z)
      = Some (lg, lgt, gs)
    ∧ lg !! 0%nat = Some total ∧ sum_ascending Z.add [1; 2; 4]%Z = Some total
    ∧ lgt !! 0%nat = Some total_test
    ∧ sum_ascending Z.add [10; 20; 40]%Z = Some total_test
    ∧ gs !! 0%nat = Some g0 ∧ length g0 = 2%nat
    ∧ ∀ j, (j < 2)%nat →
        ∃ col t,
          grad_column j [[[1; 2]; [3]]; [[10; 20]; [30]]; [[100; 200]; [300]]]%Z
            = Some col
          ∧ sum_ascending (tensor_add Z.add) col = Some t
          ∧ g0 !! j = Some t
          ∧ ∀ k ks, scalar_column k col = Some ks →
                    t !! k = sum_ascending Z.add ks.
Proof.
  apply (aggregate_sums_in_device_order Z.add Z.add 3
           [1; 2; 4]%Z [10; 20; 40]%Z
           [[[1; 2]; [3]]; [[10; 20]; [30]]; [[100; 200]; [300]]]%Z 2).
  - lia.
  - reflexivity.
  - reflexivity.
  - reflexivity.
  - repeat constructor.
Defined.

(** ** Bits per dimension *)






(** ** Exponential moving average *)






Lemma cell_ema_apply (d : Q) (shadow live : params) (p e : nat) (s v : Q) :
  cell p e shadow = Some s → cell p e live = Some v →
  cell p e (ema_apply d shadow live) = Some (ema_scalar d s v).
Proof.
  unfold cell, ema_apply, ema_tensor. intros Hs Hv.
  rewrite lookup_zip_with.
  destruct (shadow !! p) as [ts|]; [|done].
  destruct (live !! p) as [tv|]; [|done]. simpl in *.
  by rewrite lookup_zip_with Hs /= Hv.
Qed.

Lemma cell_ema_run (d : Q) (p e : nat) (lives : list params) :
  ∀ (shadow0 : params) (s0 : Q) (vs : list Q),
    cell p e shadow0 = Some s0 → mapM (cell p e) lives = Some vs →
    cell p e (ema_run d shadow0 lives) = Some (ema_scalar_run d s0 vs).
Proof.
  unfold ema_run, ema_scalar_run.
  induction lives as [|lv lives IH]; intros shadow0 s0 vs Hs Hm; simpl in Hm.
  - injection Hm as <-. done.
  - destruct (cell p e lv) as [v|] eqn:Hv; simpl in Hm; [|done].
    destruct (mapM _ lives) as [vs'|] eqn:Hvs; simpl in Hm; [|done].
    injection Hm as <-. simpl. apply IH; [|done].
    by apply cell_ema_apply.
Qed.




Lemma mirrors_sym (a b : params) : mirrors a b → mirrors b a.
Proof.
  unfold mirrors. induction 1; constructor; [congruence|done].
Qed.





(** ** Shapes *)

Lemma image_ok_spec (h w c : nat) (im : list (list (list Q))) :
  image_ok h w c im ↔
  length im = h
  ∧ ∀ y row, im !! y = Some row →
      length row = w ∧ ∀ x p, row !! x = Some p → length p = c.
Proof.
  unfold image_ok, pixel_ok.
  rewrite andb_True bool_decide_spec forallb_True Forall_lookup.
  split; intros [Hl Hrows]; (split; [done|]); intros y row Hrow.
  - specialize (Hrows y row Hrow).
    rewrite andb_True bool_decide_spec forallb_True Forall_lookup in Hrows.
    destruct Hrows as [Hw Hpx]. split; [done|]. intros x p Hp.
    specialize (Hpx x p Hp). by rewrite bool_decide_spec in Hpx.
  - destruct (Hrows y row Hrow) as [Hw Hpx].
    rewrite andb_True bool_decide_spec forallb_True Forall_lookup.
    split; [done|]. intros x p Hp. rewrite bool_decide_spec. by eapply Hpx.
Qed.

Lemma has_shape_spec (b h w c : nat) (t : list (list (list (list Q)))) :
  has_shape b h w c t ↔
  length t = b ∧ ∀ bi im, t !! bi = Some im → image_ok h w c im.
Proof.
  unfold has_shape.
  by rewrite andb_True bool_decide_spec forallb_True Forall_lookup.
Qed.

Lemma np_zeros_shape (b h w c : nat) : has_shape b h w c (np_zeros b h w c).
Proof.
  apply has_shape_spec. unfold np_zeros. split; [by rewrite length_replicate|].
  intros bi im [-> _]%lookup_replicate. apply image_ok_spec.
  split; [by rewrite length_replicate|].
  intros y row [-> _]%lookup_replicate. split; [by rewrite length_replicate|].
  intros x p [-> _]%lookup_replicate. by rewrite length_replicate.
Qed.


(** ** Reading and writing one pixel *)

Lemma read_px_ok (h w c : nat) (im : list (list (list Q))) (yi xi : nat) :
  image_ok h w c im → (yi < h)%nat → (xi < w)%nat →
  ∃ p, read_px im yi xi = Some p ∧ length p = c.
Proof.
  intros [Hl Hrows]%image_ok_spec Hy Hx. unfold read_px.
  destruct (lookup_lt_is_Some_2 im yi) as [row Hrow]; [lia|].
  destruct (Hrows yi row Hrow) as [Hw Hpx].
  destruct (lookup_lt_is_Some_2 row xi) as [p Hp]; [lia|].
  exists p. rewrite Hrow /= Hp. split; [done|]. by eapply Hpx.
Qed.

Lemma write_px_ok (h w c : nat) (im : list (list (list Q))) (yi xi : nat)
    (p : list Q) :
  image_ok h w c im → (yi < h)%nat → (xi < w)%nat → length p = c →
  ∃ im', write_px im yi xi p = Some im'
    ∧ image_ok h w c im'
    ∧ ∀ y x, read_px im' y x =
             if decide ((y, x) = (yi, xi)) then Some p else read_px im y x.
Proof.
  intros [Hl Hrows]%image_ok_spec Hy Hx Hp. unfold write_px.
  destruct (lookup_lt_is_Some_2 im yi) as [row Hrow]; [lia|].
  destruct (Hrows yi row Hrow) as [Hw Hpx].
  rewrite Hrow /=. rewrite decide_True; [|lia].
  eexists. split; [done|]. split.
  - apply image_ok_spec. split; [by rewrite length_insert|].
    intros y row' Hrow'.
    destruct (decide (y = yi)) as [->|Hne].
    + rewrite list_lookup_insert_eq in Hrow'; [|lia]. injection Hrow' as <-.
      split; [by rewrite length_insert|]. intros x q Hq.
      destruct (decide (x = xi)) as [->|Hnx].
      * rewrite list_lookup_insert_eq in Hq; [|lia]. by injection Hq as <-.
      * rewrite list_lookup_insert_ne in Hq; [|done]. by eapply Hpx.
    + rewrite list_lookup_insert_ne in Hrow'; [|done]. by apply (Hrows y).
  - intros y x. unfold read_px.
    destruct (decide (y = yi)) as [->|Hne].
    + rewrite list_lookup_insert_eq; [|lia]. simpl.
      destruct (decide (x = xi)) as [->|Hnx].
      * rewrite decide_True; [|done]. rewrite list_lookup_insert_eq; [|lia]. done.
      * rewrite decide_False; [|congruence].
        rewrite list_lookup_insert_ne; [|done]. by rewrite Hrow.
    + rewrite decide_False; [|congruence].
      by rewrite list_lookup_insert_ne.
Qed.

(** ** The slice assignment *)

Lemma assign_position_ok (h w c yi xi : nat) (x : list (list (list (list Q)))) :
  ∀ (b : nat) (new : list (list (list (list Q)))),
    has_shape b h w c x → has_shape b h w c new →
    (yi < h)%nat → (xi < w)%nat →
    ∃ x', assign_position x new yi xi = Some x'
      ∧ has_shape b h w c x'
      ∧ ∀ bi y xx, pixel_at x' bi y xx =
          if decide ((y, xx) = (yi, xi)) then pixel_at new bi yi xi
          else pixel_at x bi y xx.
Proof.
  induction x as [|im x IH]; intros b new [Hlx Hx]%has_shape_spec
    [Hln Hn]%has_shape_spec Hy Hxi.
  - destruct new as [|nim new]; [|simpl in *; lia].
    exists []. split; [done|]. split.
    + apply has_shape_spec. split; [done|]. by intros bi im' Him'.
    + intros bi y xx. unfold pixel_at. simpl. by case_decide.
  - destruct new as [|nim new]; [simpl in *; lia|].
    destruct (read_px_ok h w c nim yi xi) as (p & Hp & Hpl);
      [by apply (Hn 0%nat)|done..|].
    destruct (read_px_ok h w c im yi xi) as (old & Hold & Holdl);
      [by apply (Hx 0%nat)|done..|].
    destruct (write_px_ok h w c im yi xi p) as (im' & Him' & Hok' & Hread');
      [by apply (Hx 0%nat)|done..|].
    destruct (IH (length x) new) as (x' & Hx' & Hshape' & Hpix').
    { apply has_shape_spec. split; [done|].
      intros bi i' Hi'. by apply (Hx (S bi)). }
    { apply has_shape_spec. split; [simpl in *; lia|].
      intros bi i' Hi'. by apply (Hn (S bi)). }
    { done. } { done. }
    exists (im' :: x'). cbn [assign_position].
    rewrite Hp /= Hold /=. rewrite decide_True; [|congruence].
    rewrite Him' /= Hx' /=. split; [done|]. split.
    + apply has_shape_spec. apply has_shape_spec in Hshape' as [Hl' Hims'].
      split; [simpl in *; lia|].
      intros [|bi] i' Hi'; simpl in Hi'; [by injection Hi' as <-|].
      by apply (Hims' bi).
    + intros [|bi] y xx.
      * unfold pixel_at. simpl. rewrite Hread'. case_decide; [done|done].
      * specialize (Hpix' bi y xx). unfold pixel_at in *. simpl. exact Hpix'.
Qed.

Lemma commit_device_spec (new : list (list (list (list (list Q))))) (yi xi i : nat)
    (cur : list (list (list (list (list Q))))) (x nw x' : list (list (list (list Q)))) :
  cur !! i = Some x → new !! i = Some nw →
  assign_position x nw yi xi = Some x' →
  commit_device new yi xi i cur = Some (<[i := x']> cur).
Proof. intros Hx Hn Ha. unfold commit_device. by rewrite Hx /= Hn /= Ha. Qed.

(** The device loop of the commit: device [i] receives its own new array. *)
Lemma commit_loop (new : list (list (list (list (list Q))))) (yi xi : nat)
    (x_gen : list (list (list (list (list Q))))) (m : nat) :
  ∀ (j : nat) (cur : list (list (list (list (list Q))))),
    (j + m ≤ length x_gen)%nat → length cur = length x_gen →
    (∀ i, (j ≤ i)%nat → cur !! i = x_gen !! i) →
    (∀ i x, x_gen !! i = Some x →
       ∃ nw x', new !! i = Some nw ∧ assign_position x nw yi xi = Some x') →
    ∃ out, for_each (commit_device new yi xi) (seq j m) cur = Some out
      ∧ length out = length x_gen
      ∧ ∀ i, out !! i =
          if decide (j ≤ i < j + m)%nat
          then (x ← x_gen !! i; nw ← new !! i; assign_position x nw yi xi)
          else cur !! i.
Proof.
  induction m as [|m IH]; intros j cur Hjm Hlen Hsame Hall.
  - exists cur. split; [done|]. split; [done|].
    intros i. case_decide; [lia|done].
  - destruct (lookup_lt_is_Some_2 x_gen j) as [x Hx]; [lia|].
    destruct (Hall j x Hx) as (nw & x' & Hnw & Hx').
    cbn [seq for_each].
    rewrite (commit_device_spec new yi xi j cur x nw x') //; [|by rewrite Hsame].
    simpl.
    destruct (IH (S j) (<[j := x']> cur)) as (out & Hout & Hlo & Hlook).
    + lia.
    + by rewrite length_insert.
    + intros i Hi. rewrite list_lookup_insert_ne; [|lia]. apply Hsame. lia.
    + done.
    + exists out. split; [done|]. split; [done|].
      intros i. rewrite Hlook.
      destruct (decide (i = j)) as [->|Hne].
      * rewrite (decide_False (P := (S j ≤ j < S j + m)%nat)); [|lia].
        rewrite (decide_True (P := (j ≤ j < j + S m)%nat)); [|lia].
        rewrite list_lookup_insert_eq; [|lia]. by rewrite Hx /= Hnw.
      * rewrite list_lookup_insert_ne; [|done].
        repeat case_decide; try lia; done.
Qed.
Section SamplerFacts.
Context {D O : Type}.
Variable model_spec : list (list Q) → list (list (list (list Q))) → bool → Q → ModelOpt → nat → D.
Variable sample_from_discretized_mix_logistic : D → Z → nat → nat → list (list (list (list Q))).
Variable args : Args.

Abbreviation step := (sample_step model_spec sample_from_discretized_mix_logistic args).
Abbreviation node := (new_x_gen_node model_spec sample_from_discretized_mix_logistic args).

(** The static shape of the placeholders [xs[i]] and of the nodes
    [new_x_gen[i]]: batch [b], height [h], width [w], [c] channels. *)
Variables b h w c : nat.
Hypothesis node_shape :
  ∀ i (s : Session O) x, has_shape b h w c x → has_shape b h w c (node i s x).

(** One pass of the loop body at an in-range position: it returns, every
    canvas keeps its shape, the pixel at [(yi, xi)] of every image becomes
    the one generated there, and every other pixel is kept. *)
Lemma sample_step_spec (yi xi : nat) (x_gen : list (list (list (list (list Q)))))
    (s : Session O) :
  length x_gen = Z.to_nat (nr_gpu args) →
  (∀ i x, x_gen !! i = Some x → has_shape b h w c x) →
  (yi < h)%nat → (xi < w)%nat →
  ∃ x_gen',
    step yi xi (x_gen, s)
      = Some (x_gen', mkSession (live s) (shadow s) (opt_slots s) (S (tick s)))
    ∧ length x_gen' = length x_gen
    ∧ ∀ i x, x_gen !! i = Some x →
        ∃ x', x_gen' !! i = Some x' ∧ has_shape b h w c x'
          ∧ ∀ bi y xx, pixel_at x' bi y xx =
              if decide ((y, xx) = (yi, xi)) then pixel_at (node i s x) bi yi xi
              else pixel_at x bi y xx.
Proof.
  intros Hlen Hshape Hy Hx.
  set (new := imap (λ i x, node i s x) x_gen).
  assert (∀ i x, x_gen !! i = Some x →
            ∃ nw x', new !! i = Some nw ∧ assign_position x nw yi xi = Some x')
    as Hall.
  { intros i x Hi. exists (node i s x).
    destruct (assign_position_ok h w c yi xi x b (node i s x)) as (x' & Hx' & _);
      [by eapply Hshape|by eapply node_shape, Hshape|done..|].
    exists x'. split; [|done]. subst new. by rewrite list_lookup_imap Hi. }
  destruct (commit_loop new yi xi x_gen (length x_gen) 0 x_gen)
    as (out & Hout & Hlo & Hlook); [lia|done|done|done|].
  exists out. unfold sample_step, run_new_x_gen, py_range.
  fold new. rewrite -Hlen Hout /=. split; [done|]. split; [done|].
  intros i x Hi. rewrite Hlook.
  rewrite decide_True; [|apply lookup_lt_Some in Hi; lia].
  rewrite Hi /=. subst new. rewrite list_lookup_imap Hi /=.
  destruct (assign_position_ok h w c yi xi x b (node i s x)) as (x' & Hx' & Hsh & Hpx);
    [by eapply Hshape|by eapply node_shape, Hshape|done..|].
  exists x'. by rewrite Hx'.
Qed.

(** The same in terms of the pixels of the canvases. *)
Lemma sample_step_frame (yi xi : nat) (x_gen : list (list (list (list (list Q)))))
    (s : Session O) :
  length x_gen = Z.to_nat (nr_gpu args) →
  (∀ i x, x_gen !! i = Some x → has_shape b h w c x) →
  (yi < h)%nat → (xi < w)%nat →
  ∃ x_gen',
    step yi xi (x_gen, s)
      = Some (x_gen', mkSession (live s) (shadow s) (opt_slots s) (S (tick s)))
    ∧ length x_gen' = Z.to_nat (nr_gpu args)
    ∧ (∀ i x, x_gen' !! i = Some x → has_shape b h w c x)
    ∧ (∀ i bi q, q ≠ (yi, xi) →
         canvas_pixel x_gen' i bi q = canvas_pixel x_gen i bi q)
    ∧ (∀ i bi x, x_gen !! i = Some x →
         canvas_pixel x_gen' i bi (yi, xi) = pixel_at (node i s x) bi yi xi).
Proof.
  intros Hlen Hshape Hy Hx.
  destruct (sample_step_spec yi xi x_gen s) as (x_gen' & Hstep & Hlen' & Hpx);
    [done..|].
  exists x_gen'. split; [done|]. split; [congruence|]. split; [|split].
  - intros i x' Hi'.
    destruct (lookup_lt_is_Some_2 x_gen i) as [x Hi].
    { apply lookup_lt_Some in Hi'. lia. }
    destruct (Hpx i x Hi) as (x'' & Hi'' & Hsh & _). congruence.
  - intros i bi [y xx] Hq. unfold canvas_pixel. simpl.
    destruct (x_gen !! i) as [x|] eqn:Hi.
    + destruct (Hpx i x Hi) as (x' & -> & _ & Hpix). simpl.
      rewrite Hpix. by rewrite decide_False.
    + rewrite (lookup_ge_None_2 x_gen' i); [done|].
      apply lookup_ge_None_1 in Hi. lia.
  - intros i bi x Hi. unfold canvas_pixel.
    destruct (Hpx i x Hi) as (x' & -> & _ & Hpix). simpl.
    rewrite Hpix. by rewrite decide_True.
Qed.

(** A run of steps over in-range positions returns and leaves every pixel
    outside those positions as it was. *)
Lemma steps_frame (ps : list (nat * nat)) :
  ∀ (x_gen : list (list (list (list (list Q))))) (s : Session O),
    length x_gen = Z.to_nat (nr_gpu args) →
    (∀ i x, x_gen !! i = Some x → has_shape b h w c x) →
    Forall (λ p : nat * nat, (p.1 < h)%nat ∧ (p.2 < w)%nat) ps →
    ∃ x_gen' s',
      for_each (λ p, step p.1 p.2) ps (x_gen, s) = Some (x_gen', s')
      ∧ length x_gen' = Z.to_nat (nr_gpu args)
      ∧ (∀ i x, x_gen' !! i = Some x → has_shape b h w c x)
      ∧ ∀ i bi q, q ∉ ps →
          canvas_pixel x_gen' i bi q = canvas_pixel x_gen i bi q.
Proof.
  induction ps as [|[yi xi] ps IH]; intros x_gen s Hlen Hshape Hall.
  - exists x_gen, s. by repeat split.
  - inversion Hall as [|? ? [Hy Hx] Hrest]; subst. simpl in Hy, Hx.
    destruct (sample_step_frame yi xi x_gen s)
      as (x1 & Hstep & Hlen1 & Hsh1 & Hframe1 & _); [done..|].
    destruct (IH x1 (mkSession (live s) (shadow s) (opt_slots s) (S (tick s))))
      as (x2 & s2 & Hrun & Hlen2 & Hsh2 & Hframe2); [done..|].
    exists x2, s2. cbn [for_each fst snd]. rewrite Hstep. cbn [mbind option_bind].
    split; [done|]. split; [done|]. split; [done|].
    intros i bi q Hq. apply not_elem_of_cons in Hq as [Hne Hq].
    rewrite Hframe2; [|done]. by apply Hframe1.
Qed.

(** C1 (amended). At every raster position inside the canvas the
    transition returns; for every device it runs the network on the whole
    current canvas with the live parameters ([ema=None]) and dropout 0,
    draws a sample from the returned distribution, and commits into the
    canvas the sample's values at that position only: the pixel at the
    position becomes the sampled one and every other pixel is kept.  The
    shadow parameters are not read: another shadow set gives the same
    canvases. *)
Theorem sampler_transition (yi xi : nat)
    (x_gen : list (list (list (list (list Q))))) (s : Session O) :
  length x_gen = Z.to_nat (nr_gpu args) →
  (∀ i x, x_gen !! i = Some x → has_shape b h w c x) →
  (yi < h)%nat → (xi < w)%nat →
  ∃ x_gen',
    step yi xi (x_gen, s)
      = Some (x_gen', mkSession (live s) (shadow s) (opt_slots s) (S (tick s)))
    ∧ (∀ i x, x_gen !! i = Some x →
        let generated :=
          sample_from_discretized_mix_logistic
            (model_spec (live s) x false 0 (model_opt args) (tick s))
            (nr_logistic_mix args) i (tick s) in
        ∀ bi,
          canvas_pixel x_gen' i bi (yi, xi) = pixel_at generated bi yi xi
          ∧ ∀ q, q ≠ (yi, xi) →
              canvas_pixel x_gen' i bi q = canvas_pixel x_gen i bi q)
    ∧ ∀ shadow', ∃ s',
        step yi xi (x_gen, mkSession (live s) shadow' (opt_slots s) (tick s))
          = Some (x_gen', s').
Proof.
  intros Hlen Hshape Hy Hx.
  destruct (sample_step_frame yi xi x_gen s)
    as (x_gen' & Hstep & Hlen' & Hsh' & Hframe & Hpos); [done..|].
  exists x_gen'. split; [done|]. split.
  - intros i x Hi generated bi. split; [by apply Hpos|].
    intros q Hq. by apply Hframe.
  - intros shadow'.
    exists (mkSession (live s) shadow' (opt_slots s) (S (tick s))).
    unfold sample_step, run_new_x_gen, new_x_gen_node, model in *.
    simpl in *.
    destruct (for_each _ _ x_gen) as [out|]; simpl in *; [|done].
    simplify_eq. reflexivity.
Qed.

End SamplerFacts.

(** ** The stand-in network *)

Lemma has_shape_map (f : Q → Q) (b h w c : nat) (x : list (list (list (list Q)))) :
  has_shape b h w c x → has_shape b h w c (map (map (map (map f))) x).
Proof.
  intros [Hl Him]%has_shape_spec. apply has_shape_spec.
  split; [by rewrite length_map|].
  intros bi im' Him'. change map with (@fmap list _) in Him'.
  apply list_lookup_fmap_Some in Him' as (im & -> & Hbi).
  apply image_ok_spec. apply Him, image_ok_spec in Hbi as [Hh Hrows].
  split; [by rewrite length_map|].
  intros y row' Hrow'. apply list_lookup_fmap_Some in Hrow' as (row & -> & Hy).
  destruct (Hrows y row Hy) as [Hw Hpx]. split; [by rewrite length_map|].
  intros xx p' Hp'. apply list_lookup_fmap_Some in Hp' as (p & -> & Hxx).
  rewrite length_map. by apply (Hpx xx).
Qed.

Lemma stub_node_shape (args : Args) (b h w c : nat) :
  ∀ i (s : Session unit) x,
    has_shape b h w c x →
    has_shape b h w c (new_x_gen_node stub_model_spec stub_sample args i s x).
Proof. intros i s x Hx. by apply has_shape_map. Qed.

(** The transition theorem on the stand-ins: one device, one image, at
    position (0, 0) of the zero canvas. *)
Lemma sampler_transition_witness :
  ∃ x_gen',
    sample_step stub_model_spec stub_sample one_device_args
      0 0 ([np_zeros 1 32 32 3], stub_session)
    = Some (x_gen', mkSession [[1%Q]] [[2%Q]] tt 1)
    ∧ canvas_pixel x_gen' 0 0 (0, 0)%nat = Some [1; 1; 1]%Q
    ∧ ∀ q, q ≠ (0, 0)%nat →
        canvas_pixel x_gen' 0 0 q = canvas_pixel [np_zeros 1 32 32 3] 0 0 q.
Proof.
  destruct (sampler_transition stub_model_spec stub_sample
              one_device_args 1 32 32 3
              (stub_node_shape _ 1 32 32 3) 0 0 [np_zeros 1 32 32 3] stub_session)
    as (x_gen' & Hstep & Hpx & _).
  - reflexivity.
  - intros [|i] x Hi; [|done]. injection Hi as <-. apply np_zeros_shape.
  - lia.
  - lia.
  - exists x_gen'. split; [exact Hstep|].
    destruct (Hpx 0%nat (np_zeros 1 32 32 3) eq_refl 0%nat) as [H0 Hrest].
    split; [exact H0|exact Hrest].
Defined.

(** C1 as stated fails: with live parameter 1 and shadow parameter 2 the
    transition of the script commits the pixel drawn from the live
    parameters, not the one the shadow parameters give. *)
Lemma sampler_reads_live_parameters :
  (sample_step stub_model_spec stub_sample one_device_args 0 0
     ([np_zeros 1 32 32 3], stub_session)
   ≠ spec_sample_step stub_model_spec stub_sample one_device_args 0 0
       ([np_zeros 1 32 32 3], stub_session))
  ∧ (x ← sample_step stub_model_spec stub_sample one_device_args 0 0
           ([np_zeros 1 32 32 3], stub_session);
     canvas_pixel x.1 0 0 (0, 0)%nat) = Some [1; 1; 1]%Q
  ∧ (x ← spec_sample_step stub_model_spec stub_sample one_device_args 0 0
           ([np_zeros 1 32 32 3], stub_session);
     canvas_pixel x.1 0 0 (0, 0)%nat) = Some [2; 2; 2]%Q.
Proof.
  set (args := one_device_args). set (st := ([np_zeros 1 32 32 3], stub_session)).
  assert ((x ← sample_step stub_model_spec stub_sample args 0 0 st;
           canvas_pixel x.1 0 0 (0, 0)%nat) = Some [1; 1; 1]%Q) as Hcode
    by (vm_compute; reflexivity).
  assert ((x ← spec_sample_step stub_model_spec stub_sample args 0 0 st;
           canvas_pixel x.1 0 0 (0, 0)%nat) = Some [2; 2; 2]%Q) as Hspec
    by (vm_compute; reflexivity).
  split; [|split; [exact Hcode|exact Hspec]].
  intros Heq. rewrite Heq Hspec in Hcode. discriminate Hcode.
Qed.


(** ** The driver monad *)

Lemma bind_trace {A B} (m : prog A) (f : A → prog B) :
  (bind m f).1 = m.1 ++ match m.2 with Returned a => (f a).1 | Raised _ => [] end.
Proof.
  destruct m as [t [a|e]]; simpl; [|by rewrite app_nil_r].
  by destruct (f a).
Qed.


Lemma events_bind {A B} (P : event → Prop) (m : prog A) (f : A → prog B) :
  Forall P m.1 → (∀ a, m.2 = Returned a → Forall P (f a).1) →
  Forall P (bind m f).1.
Proof.
  intros Hm Hf. rewrite bind_trace. apply Forall_app. split; [done|].
  destruct m.2; [by apply Hf|constructor].
Qed.

Lemma events_for_prog_in {S A} (P : event → Prop) (body : A → S → prog S)
    (l : list A) :
  (∀ a s, a ∈ l → Forall P (body a s).1) → ∀ s, Forall P (for_prog body l s).1.
Proof.
  induction l as [|a l IH]; intros Hbody s; simpl; [constructor|].
  apply events_bind; [apply Hbody; left|]. intros s' _. apply IH.
  intros a' s'' Hin. apply Hbody. by right.
Qed.

Lemma events_for_prog {S A} (P : event → Prop) (body : A → S → prog S)
    (l : list A) :
  (∀ a s, Forall P (body a s).1) → ∀ s, Forall P (for_prog body l s).1.
Proof. intros Hbody. apply events_for_prog_in. intros a s _. apply Hbody. Qed.

Lemma events_lift {A} (P : event → Prop) (e : exn) (o : option A) :
  Forall P (lift e o).1.
Proof. destruct o; constructor. Qed.

(** ** Learning-rate schedule *)


Lemma train_lrs_none (t : list event) :
  Forall (λ e, is_train e = false) t → train_lrs t = [].
Proof.
  induction 1 as [|e t He _ IH]; [done|].
  unfold train_lrs in *. simpl. destruct e; try done.
Qed.

Lemma lr_after_add (lr d : Q) (n k : nat) :
  lr_after (lr_after lr d n) d k = lr_after lr d (n + k).
Proof.
  unfold lr_after. rewrite (Nat.add_comm n k). by rewrite Nat.iter_add.
Qed.






(** ** The driver *)

Section DriverFacts.
Context {D O : Type}.
Variable model_spec : params → tensor4 → bool → Q → ModelOpt → nat → D.
Variable sample_from_discretized_mix_logistic : D → Z → nat → nat → tensor4.
Variable loss_fun : tensor4 → D → Q.
Variable tf_gradients : (params → Q) → params → params.
Variable adam_updates : O → params → params → Q → Q → Q → O * params.
Variable initial_values : O * params.
Variable data_dependent_init : params → tensor4 → Q → ModelOpt → params.
Variable checkpoint : string → Session O.
Variable args : Args.

Abbreviation the_init_block := (init_block initial_values data_dependent_init checkpoint args).
Abbreviation the_train_batch := (train_batch model_spec loss_fun tf_gradients adam_updates args).
Abbreviation the_save_block := (save_block model_spec sample_from_discretized_mix_logistic args).
Abbreviation the_epoch_body :=
  (epoch_body model_spec sample_from_discretized_mix_logistic loss_fun
     tf_gradients adam_updates initial_values data_dependent_init checkpoint args).
Abbreviation the_train_py :=
  (train_py model_spec sample_from_discretized_mix_logistic loss_fun
     tf_gradients adam_updates initial_values data_dependent_init checkpoint args).

Lemma make_feed_dict_trace (d : tensor4) (init : bool) :
  (make_feed_dict args d init).1 = [].
Proof.
  unfold make_feed_dict. destruct init; [done|]. by destruct (np_split _ _).
Qed.

(** The [epoch == 0] block performs start-up events only, at most the
    initializer followed by the init pass. *)
Lemma init_block_cases (epoch : nat) (it : list tensor4) (s : Session O) :
  (epoch ≠ 0%nat ∧ the_init_block epoch it s = ([], Returned (it, s)))
  ∨ (epoch = 0%nat ∧ load_params args = true
     ∧ the_init_block epoch it s
       = ([EvRestore (ckpt_file args)], Returned (it, checkpoint (ckpt_file args))))
  ∨ (epoch = 0%nat ∧ load_params args = false
     ∧ ((∃ e, the_init_block epoch it s = ([EvInitializer], Raised e))
        ∨ ∃ d rest s', it = d :: rest
            ∧ feed_ok (init_batch_size args) (scale_input d) = true
            ∧ the_init_block epoch it s
              = ([EvInitializer; EvInitPass (scale_input d)], Returned (rest, s')))).
Proof.
  unfold init_block. destruct (decide (epoch = 0%nat)) as [->|Hne]; [|by left].
  right. destruct (load_params args); [by left|]. right.
  split; [done|]. split; [done|].
  destruct it as [|d rest]; [left; by eexists|].
  simpl. destruct (feed_ok (init_batch_size args) (scale_input d)) eqn:Hfeed.
  - right. by eexists _, _, _.
  - left. by eexists.
Qed.

Lemma init_block_quiet (epoch : nat) (it : list tensor4) (s : Session O) :
  Forall (λ e, is_train e = false) (the_init_block epoch it s).1.
Proof.
  destruct (init_block_cases epoch it s)
    as [[_ ->]|[(_ & _ & ->)|(_ & _ & [[e ->]|(d & rest & s' & _ & _ & ->)])]];
    repeat constructor.
Qed.

Lemma sample_once_events (P : event → Prop) (k : nat)
    (st : list tensor4 * Session O) :
  P EvSample →
  Forall P (sample_once model_spec sample_from_discretized_mix_logistic args k st).1.
Proof.
  intros HP. destruct st as [sx s]. unfold sample_once.
  apply events_bind; [by repeat constructor|]. intros _ _.
  apply events_bind; [apply events_lift|]. intros [x s'] _. constructor.
Qed.

(** The save block performs sampling and file events only. *)
Lemma save_block_events (P : event → Prop) (epoch : nat) (s : Session O) :
  P EvSample → (∀ p, P (EvSavefig p)) → (∀ p a, P (EvSavez p a)) →
  (∀ p, P (EvSaverSave p)) →
  Forall P (the_save_block epoch s).1.
Proof.
  intros Hs Hf Hz Hc. unfold save_block.
  destruct (decide (save_interval args = 0%Z)); [constructor|].
  destruct (decide _); [|constructor].
  apply events_bind.
  { apply events_for_prog. intros k st. by apply sample_once_events. }
  intros [sx s'] _. apply events_bind; [apply events_lift|]. intros x _.
  repeat (apply events_bind; [by repeat constructor|]; intros _ _).
  constructor.
Qed.




(** ** Placement of the init pass *)

Lemma train_batch_events (P : event → Prop) (d : tensor4) (st : loop_state) :
  (∀ lr xs, P (EvTrain lr xs)) → Forall P (the_train_batch d st).1.
Proof.
  intros HP. destruct st as [[s lr] ls]. unfold train_batch, make_feed_dict.
  destruct (np_split _ _) as [xs|e]; simpl; [|constructor].
  destruct (forallb _ xs); simpl; [|constructor].
  destruct (run_train _ _ _ _ _ _ _ _) as [[l s']|]; simpl; by repeat constructor.
Qed.








(** ** A batch that does not split *)



(** ** The save block *)


End DriverFacts.

(** ** The script on the stand-ins *)

(** Two epochs over four images with batch size 2: one optimizer step in
    epoch 0 (the first batch feeds the init pass), two in epoch 1; the rate
    keeps decaying across the epoch boundary. *)
Example stub_run_rates :
  train_lrs (stub_train_py two_epoch_args (blank_images 4)).1
  = map (lr_after (1 # 1000) (999995 # 1000000)) [1; 2; 3]%nat.
Proof. vm_compute. reflexivity. Qed.







(** * Further properties of the script *)

(** ** Feeding: scaling and splitting (lines 168-176) *)

Lemma concat_slices {A : Type} (sz m : nat) :
  ∀ x : list A, length x = (m * sz)%nat →
    concat (map (λ k, take sz (drop (k * sz) x)) (seq 0 m)) = x.
Proof.
  induction m as [|m IH]; intros x Hlen.
  - simpl in *. by destruct x.
  - cbn [seq map concat]. rewrite drop_0.
    transitivity (take sz x ++ drop sz x); [|apply take_drop]. f_equal.
    rewrite -(IH (drop sz x)); [|rewrite length_drop; lia].
    rewrite -(fmap_S_seq 0 m). change (@fmap list _) with (@map).
    rewrite map_map. f_equal. apply map_ext. intros k.
    rewrite drop_drop. reflexivity.
Qed.

Lemma np_split_ok (x : tensor4) (n : Z) :
  (1 ≤ n)%Z → (Z.of_nat (length x) `mod` n = 0)%Z →
  ∃ xs sz, np_split x n = Returned xs
    ∧ (Z.to_nat n * sz)%nat = length x
    ∧ length xs = Z.to_nat n
    ∧ Forall (λ part : tensor4, length part = sz) xs
    ∧ concat xs = x.
Proof.
  intros Hn Hmod. unfold np_split.
  rewrite decide_False; [|lia]. rewrite decide_True; [|done].
  rewrite decide_False; [|lia].
  apply Z.mod_divide in Hmod as [k Hk]; [|lia].
  assert (length x = (Z.to_nat n * Z.to_nat k)%nat) as Hlen by nia.
  assert (length x / Z.to_nat n = Z.to_nat k)%nat as Hsz.
  { rewrite Hlen Nat.mul_comm. apply Nat.div_mul. lia. }
  eexists _, (Z.to_nat k). split; [reflexivity|]. rewrite Hsz.
  split; [lia|]. split; [by rewrite length_map length_seq|]. split.
  - apply Forall_forall. intros part Hin. apply list_elem_of_In in Hin.
    apply in_map_iff in Hin as (j & <- & Hj%in_seq).
    rewrite length_take length_drop. nia.
  - apply concat_slices. lia.
Qed.

(** X1. In training mode [make_feed_dict] performs no event; for at least
    one device and a batch whose size the device count divides it returns
    one slice per device, all of the same size, whose concatenation in
    device order is the scaled batch; in init mode it returns the whole
    scaled batch, whatever the device count. *)
Theorem make_feed_dict_partition (args : Args) (data : tensor4) :
  (1 ≤ nr_gpu args)%Z → (Z.of_nat (length data) `mod` nr_gpu args = 0)%Z →
  make_feed_dict args data true = ([], Returned (FeedInit (scale_input data)))
  ∧ ∃ xs sz,
      make_feed_dict args data false = ([], Returned (FeedTrain xs))
      ∧ (Z.to_nat (nr_gpu args) * sz)%nat = length data
      ∧ length xs = Z.to_nat (nr_gpu args)
      ∧ Forall (λ part : tensor4, length part = sz) xs
      ∧ concat xs = scale_input data.
Proof.
  intros Hg Hmod. split; [done|].
  destruct (np_split_ok (scale_input data) (nr_gpu args)) as (xs & sz & Hs & Hsz & Hl & Hall & Hcat).
  { done. } { unfold scale_input. by rewrite length_map. }
  exists xs, sz. unfold make_feed_dict. rewrite Hs.
  unfold scale_input in Hsz. rewrite length_map in Hsz. done.
Qed.

Lemma make_feed_dict_partition_witness :
  ∃ xs sz,
    make_feed_dict scenario_args (blank_images 4) false = ([], Returned (FeedTrain xs))
    ∧ (Z.to_nat (nr_gpu scenario_args) * sz)%nat = length (blank_images 4)
    ∧ length xs = Z.to_nat (nr_gpu scenario_args)
    ∧ Forall (λ part : tensor4, length part = sz) xs
    ∧ concat xs = scale_input (blank_images 4).
Proof.
  apply (make_feed_dict_partition scenario_args (blank_images 4)).
  - vm_compute. discriminate.
  - vm_compute. reflexivity.
Defined.


(** X3. The scaling of line 170 sends 0 to -1 and 255 to 1, is strictly
    increasing, hence sends the range [0, 255] of the input bytes into
    [-1, 1]; it keeps the shape of the batch. *)
Theorem scale_input_range (v u : Q) (b h w c : nat) (x : tensor4) :
  scale_scalar 0 == -1
  ∧ scale_scalar 255 == 1
  ∧ (v < u → scale_scalar v < scale_scalar u)%Q
  ∧ (0 <= v → v <= 255 → -1 <= scale_scalar v ∧ scale_scalar v <= 1)%Q
  ∧ (has_shape b h w c x → has_shape b h w c (scale_input x)).
Proof.
  unfold scale_scalar. split; [reflexivity|]. split; [reflexivity|].
  assert (∀ a : Q, (a - (1275 # 10)) / (1275 # 10) == (a - (1275 # 10)) * (10 # 1275))
    as Hdiv by (intros a; reflexivity).
  split; [|split].
  - intros Hlt. rewrite !Hdiv. lra.
  - intros H0 H255. rewrite !Hdiv. split; lra.
  - apply has_shape_map.
Qed.

(** ** The batches of an epoch (line 90) *)

Lemma chunks_lookup {A : Type} (n : nat) (fuel : nat) :
  ∀ (l : list A) (i : nat), (1 ≤ n)%nat → (length l ≤ fuel)%nat →
    chunks fuel n l !! i
    = if decide (i * n < length l)%nat then Some (take n (drop (i * n) l))
      else None.
Proof.
  induction fuel as [|fuel IH]; intros l i Hn Hlen.
  - destruct l; [|simpl in Hlen; lia]. cbn [chunks].
    case_decide as Hi; [simpl in Hi; lia|]. apply lookup_nil.
  - destruct l as [|a l].
    { cbn [chunks]. case_decide as Hi; [simpl in Hi; lia|]. apply lookup_nil. }
    cbn [chunks]. destruct i as [|i].
    + case_decide as Hi; [done|]. simpl in Hi. lia.
    + change ((take n (a :: l) :: chunks fuel n (drop n (a :: l))) !! S i)
        with (chunks fuel n (drop n (a :: l)) !! i).
      rewrite IH; [|done|rewrite length_drop; simpl in *; lia].
      rewrite length_drop drop_drop.
      replace (n + i * n)%nat with (S i * n)%nat by lia.
      repeat case_decide; try done; lia.
Qed.

Lemma chunks_concat {A : Type} (n : nat) (fuel : nat) :
  ∀ l : list A, (1 ≤ n)%nat → (length l ≤ fuel)%nat →
    concat (chunks fuel n l) = l.
Proof.
  induction fuel as [|fuel IH]; intros l Hn Hlen.
  - destruct l; [done|simpl in Hlen; lia].
  - destruct l as [|a l]; [done|]. cbn [chunks concat].
    rewrite IH; [|done|rewrite length_drop; simpl in *; lia].
    apply take_drop.
Qed.

(** X4. For a positive batch size the batches of an epoch are the
    consecutive slices of [batch_size] examples of the training set: batch
    [i] exists exactly when [i * batch_size] is below the number of
    examples, so no batch is empty, none has more than [batch_size]
    examples, only the last can have fewer, and their concatenation is the
    training set. *)
Theorem epoch_batches_partition (n : Z) (data : tensor4) :
  (1 ≤ n)%Z →
  concat (epoch_batches n data) = data
  ∧ (∀ i, epoch_batches n data !! i
          = if decide (i * Z.to_nat n < length data)%nat
            then Some (take (Z.to_nat n) (drop (i * Z.to_nat n) data))
            else None)
  ∧ Forall (λ d : tensor4, (1 ≤ length d ≤ Z.to_nat n)%nat) (epoch_batches n data).
Proof.
  intros Hn. unfold epoch_batches. rewrite decide_False; [|lia].
  split; [apply chunks_concat; lia|].
  assert (∀ i, chunks (length data) (Z.to_nat n) data !! i
          = if decide (i * Z.to_nat n < length data)%nat
            then Some (take (Z.to_nat n) (drop (i * Z.to_nat n) data))
            else None) as Hlook
    by (intros i; apply chunks_lookup; lia).
  split; [exact Hlook|].
  apply Forall_lookup. intros i d Hd. rewrite Hlook in Hd.
  case_decide; [|done]. injection Hd as <-.
  rewrite length_take length_drop. lia.
Qed.

Lemma epoch_batches_partition_witness :
  concat (epoch_batches 2 (blank_images 5)) = blank_images 5
  ∧ map length (epoch_batches 2 (blank_images 5)) = [2; 2; 1]%nat.
Proof.
  destruct (epoch_batches_partition 2 (blank_images 5)) as (Hcat & _ & _).
  - lia.
  - split; [exact Hcat|]. vm_compute. reflexivity.
Defined.

(** ** The learning rate (lines 182 and 206) *)



(** ** Training steps and the placeholders (lines 95-96, 184-209) *)

Lemma feed_ok_length (b : Z) (x : tensor4) :
  feed_ok b x = true → Z.of_nat (length x) = b.
Proof.
  unfold feed_ok, has_shape. simpl. intros H.
  apply andb_prop in H as [Hb H]. apply andb_prop in H as [Hl _].
  apply bool_decide_eq_true in Hb, Hl. lia.
Qed.

Section TrainingFacts.
Context {D O : Type}.
Variable model_spec : params → tensor4 → bool → Q → ModelOpt → nat → D.
Variable sample_from_discretized_mix_logistic : D → Z → nat → nat → tensor4.
Variable loss_fun : tensor4 → D → Q.
Variable tf_gradients : (params → Q) → params → params.
Variable adam_updates : O → params → params → Q → Q → Q → O * params.
Variable initial_values : O * params.
Variable data_dependent_init : params → tensor4 → Q → ModelOpt → params.
Variable checkpoint : string → Session O.
Variable args : Args.

Abbreviation init_block' := (init_block initial_values data_dependent_init checkpoint args).
Abbreviation train_batch' := (train_batch model_spec loss_fun tf_gradients adam_updates args).
Abbreviation save_block' := (save_block model_spec sample_from_discretized_mix_logistic args).
Abbreviation epoch_body' :=
  (epoch_body model_spec sample_from_discretized_mix_logistic loss_fun
     tf_gradients adam_updates initial_values data_dependent_init checkpoint args).
Abbreviation train_py' :=
  (train_py model_spec sample_from_discretized_mix_logistic loss_fun
     tf_gradients adam_updates initial_values data_dependent_init checkpoint args).

(** A batch on which the body of the training loop performs an event. *)
Lemma train_batch_feed (d : tensor4) (s : Session O) (lr : Q) (ls : list Q) :
  (train_batch' d (s, lr, ls)).1 ≠ [] →
  (1 ≤ nr_gpu args)%Z
  ∧ Z.of_nat (length d) = (nr_gpu args * batch_size args)%Z
  ∧ ∃ xs, (train_batch' d (s, lr, ls)).1 = [EvTrain (lr * lr_decay args) xs]
      ∧ concat xs = scale_input d
      ∧ length xs = Z.to_nat (nr_gpu args).
Proof.
  unfold train_batch, make_feed_dict.
  destruct (np_split (scale_input d) (nr_gpu args)) as [xs|e] eqn:Hsplit;
    simpl; [|done].
  assert ((1 ≤ nr_gpu args)%Z
          ∧ (Z.of_nat (length (scale_input d)) `mod` nr_gpu args = 0)%Z)
    as [Hg Hmod].
  { unfold np_split in Hsplit. repeat case_decide; try done. lia. }
  destruct (np_split_ok (scale_input d) (nr_gpu args) Hg Hmod)
    as (xs' & sz & Hs & Hsz & Hl & Hall & Hcat).
  rewrite Hs in Hsplit. injection Hsplit as ->.
  destruct (forallb (feed_ok (batch_size args)) xs) eqn:Hfeed; simpl; [|done].
  intros _. split; [done|]. split.
  - destruct xs as [|x xs]; [simpl in Hl; lia|].
    simpl in Hfeed. apply andb_prop in Hfeed as [Hx _].
    apply feed_ok_length in Hx. inversion Hall as [|? ? Hxl _]; subst.
    unfold scale_input in Hsz. rewrite length_map in Hsz. nia.
  - exists xs. split; [|done].
    by destruct (run_train _ _ _ _ _ _ _ _) as [[l s']|].
Qed.

(** X6. The body of the training loop runs the optimizer only on a batch of
    exactly [nr_gpu * batch_size] examples: when it performs a training
    event, there is at least one device, the batch has that many examples,
    and the event carries the rate decayed once and the slices of the
    scaled batch, one per device. *)
Theorem train_step_needs_full_feed (d : tensor4) (s : Session O) (lr : Q)
    (ls : list Q) (lr' : Q) (xs : list tensor4) :
  EvTrain lr' xs ∈ (train_batch' d (s, lr, ls)).1 →
  (1 ≤ nr_gpu args)%Z
  ∧ Z.of_nat (length d) = (nr_gpu args * batch_size args)%Z
  ∧ lr' = (lr * lr_decay args)%Q
  ∧ concat xs = scale_input d
  ∧ length xs = Z.to_nat (nr_gpu args).
Proof.
  intros Hin.
  destruct (train_batch_feed d s lr ls) as (Hg & Hlen & xs0 & Ht & Hcat & Hl).
  { intros Hnil. rewrite Hnil in Hin. by apply not_elem_of_nil in Hin. }
  rewrite Ht in Hin. apply list_elem_of_singleton in Hin. injection Hin as -> ->.
  done.
Qed.

Lemma train_batch_quiet_on_small (d : tensor4) (st : loop_state) :
  (2 ≤ nr_gpu args)%Z → (1 ≤ batch_size args)%Z →
  (length d ≤ Z.to_nat (batch_size args))%nat →
  (train_batch' d st).1 = [].
Proof.
  intros Hg Hb Hd. destruct st as [[s lr] ls].
  destruct (train_batch' d (s, lr, ls)).1 as [|e t] eqn:Ht; [done|].
  destruct (train_batch_feed d s lr ls) as (_ & Hlen & _); [by rewrite Ht|].
  nia.
Qed.

(** X7. With two or more devices and a positive batch size the script
    never runs an optimizer step, whatever the training set: the stream
    yields at most [batch_size] examples per batch, and the placeholders of
    the devices take [batch_size] examples each. *)
Theorem no_step_on_several_devices (data : tensor4) (s0 : Session O) :
  (2 ≤ nr_gpu args)%Z → (1 ≤ batch_size args)%Z →
  train_lrs (train_py' data s0).1 = []
  ∧ Forall (λ e, is_train e = false) (train_py' data s0).1.
Proof.
  intros Hg Hb.
  assert (Forall (λ e, is_train e = false) (train_py' data s0).1) as Hquiet;
    [|split; [by apply train_lrs_none|done]].
  destruct (epoch_batches_partition (batch_size args) data Hb) as (_ & _ & Hsmall).
  unfold train_py. apply events_bind.
  { unfold build_graph. repeat case_decide; constructor. }
  intros _ _. apply events_for_prog. intros epoch [s lr].
  unfold epoch_body. apply events_bind; [apply init_block_quiet|].
  intros [it s1] Hret.
  assert (Forall (λ d : tensor4, (1 ≤ length d ≤ Z.to_nat (batch_size args))%nat) it)
    as Hit.
  { destruct (init_block_cases initial_values data_dependent_init checkpoint
                args epoch (epoch_batches (batch_size args) data) s)
      as [[_ Hi]|[(_ & _ & Hi)|(_ & _ & [[e Hi]|(d & rest & s' & Hb0 & _ & Hi)])]];
      simpl in Hret; rewrite Hi in Hret; simpl in Hret;
      try (injection Hret as <- _; done); [done|].
    injection Hret as <- _. rewrite Hb0 in Hsmall. by inversion Hsmall. }
  apply events_bind.
  { apply events_for_prog_in. intros d st Hin.
    rewrite train_batch_quiet_on_small; [constructor|done|done|].
    rewrite Forall_forall in Hit. apply Hit in Hin. lia. }
  intros [[s2 lr'] ls] _.
  apply events_bind; [by apply save_block_events|]. intros s3 _. constructor.
Qed.
End TrainingFacts.

Lemma train_step_needs_full_feed_witness :
  (1 ≤ nr_gpu one_device_args)%Z
  ∧ Z.of_nat (length (blank_images 1))
    = (nr_gpu one_device_args * batch_size one_device_args)%Z
  ∧ concat [scale_input (blank_images 1)] = scale_input (blank_images 1).
Proof.
  destruct (train_step_needs_full_feed stub_model_spec stub_loss stub_gradients
              stub_adam one_device_args (blank_images 1) stub_session
              (1 # 1000) [] ((1 # 1000) * (999995 # 1000000))%Q
              [scale_input (blank_images 1)])
    as (Hg & Hlen & _ & Hcat & _).
  - vm_compute. apply list_elem_of_here.
  - split; [exact Hg|]. split; [exact Hlen|exact Hcat].
Defined.

Lemma no_step_on_several_devices_witness :
  train_lrs (stub_train_py scenario_args (blank_images 8)).1 = []
  ∧ Forall (λ e, is_train e = false) (stub_train_py scenario_args (blank_images 8)).1.
Proof.
  apply (no_step_on_several_devices stub_model_spec stub_sample stub_loss
           stub_gradients stub_adam stub_initial stub_init stub_checkpoint
           scenario_args (blank_images 8) stub_session).
  - vm_compute. discriminate.
  - vm_compute. discriminate.
Defined.

(** ** Epochs on one device *)

Section EpochFacts.
Context {D O : Type}.
Variable model_spec : params → tensor4 → bool → Q → ModelOpt → nat → D.
Variable sample_from_discretized_mix_logistic : D → Z → nat → nat → tensor4.
Variable loss_fun : tensor4 → D → Q.
Variable tf_gradients : (params → Q) → params → params.
Variable adam_updates : O → params → params → Q → Q → Q → O * params.
Variable initial_values : O * params.
Variable data_dependent_init : params → tensor4 → Q → ModelOpt → params.
Variable checkpoint : string → Session O.
Variable args : Args.

Abbreviation init_block'' := (init_block initial_values data_dependent_init checkpoint args).
Abbreviation train_batch'' := (train_batch model_spec loss_fun tf_gradients adam_updates args).
Abbreviation save_block'' := (save_block model_spec sample_from_discretized_mix_logistic args).
Abbreviation epoch_body'' :=
  (epoch_body model_spec sample_from_discretized_mix_logistic loss_fun
     tf_gradients adam_updates initial_values data_dependent_init checkpoint args).
Abbreviation train_py'' :=
  (train_py model_spec sample_from_discretized_mix_logistic loss_fun
     tf_gradients adam_updates initial_values data_dependent_init checkpoint args).

Lemma np_split_one (x : tensor4) : np_split x 1 = Returned [x].
Proof.
  pose proof (Z.mod_1_r (Z.of_nat (length x))) as Hmod.
  unfold np_split. repeat case_decide; try lia.
  change (Z.to_nat 1) with 1%nat. rewrite Nat.div_1_r. simpl.
  by rewrite drop_0 firstn_all.
Qed.

Lemma train_batch_one_device (d : tensor4) (s : Session O) (lr : Q) (ls : list Q) :
  nr_gpu args = 1%Z → feed_ok (batch_size args) (scale_input d) = true →
  ∃ l s', train_batch'' d (s, lr, ls)
          = ([EvTrain (lr * lr_decay args) [scale_input d]],
             Returned (s', (lr * lr_decay args)%Q, ls ++ [l])).
Proof.
  intros Hg Hfeed. unfold train_batch, make_feed_dict.
  rewrite Hg np_split_one. simpl. rewrite Hfeed. simpl.
  unfold run_train, aggregate. rewrite Hg. simpl.
  destruct (adam_updates _ _ _ _ _ _) as [o' live']. simpl. by eexists _, _.
Qed.

Lemma train_loop_one_device (it : list tensor4) :
  nr_gpu args = 1%Z →
  Forall (λ d, feed_ok (batch_size args) (scale_input d) = true) it →
  ∀ (s : Session O) (lr : Q) (ls0 : list Q),
    ∃ s' ls, for_prog train_batch'' it (s, lr, ls0)
      = (imap (λ k d, EvTrain (lr_after lr (lr_decay args) (S k)) [scale_input d]) it,
         Returned (s', lr_after lr (lr_decay args) (length it), ls0 ++ ls))
      ∧ length ls = length it.
Proof.
  intros Hg Hall. induction Hall as [|d it Hd Hall IH]; intros s lr ls0.
  - exists s, []. by rewrite app_nil_r.
  - destruct (train_batch_one_device d s lr ls0 Hg Hd) as (l & s1 & Hstep).
    destruct (IH s1 (lr * lr_decay args)%Q (ls0 ++ [l])) as (s' & ls & Hrest & Hlen).
    exists s', (l :: ls). cbn [for_prog]. rewrite Hstep. cbn [bind].
    rewrite Hrest. split; [|simpl; lia].
    cbn [imap length]. f_equal.
    + f_equal. apply imap_ext. intros k d' _. simpl.
      f_equal. apply (lr_after_add lr (lr_decay args) 1 (S k)).
    + do 2 f_equal; [f_equal|by rewrite -app_assoc].
      apply (lr_after_add lr (lr_decay args) 1 (length it)).
Qed.

(** X8. On one device, an epoch other than the first whose index is not a
    multiple of the save interval, over batches that all have [batch_size]
    examples of the observation shape, runs exactly one optimizer step per
    batch, in the order of the stream, each fed the whole scaled batch and
    the rate decayed once more, does nothing else, and returns the rate
    decayed once per batch. *)
Theorem plain_epoch_one_device (data : tensor4) (epoch : nat) (s : Session O) (lr : Q) :
  nr_gpu args = 1%Z → epoch ≠ 0%nat →
  save_interval args ≠ 0%Z → (Z.of_nat epoch `mod` save_interval args ≠ 0)%Z →
  Forall (λ d, feed_ok (batch_size args) (scale_input d) = true)
    (epoch_batches (batch_size args) data) →
  ∃ s', epoch_body'' data epoch (s, lr)
    = (imap (λ k d, EvTrain (lr_after lr (lr_decay args) (S k)) [scale_input d])
         (epoch_batches (batch_size args) data),
       Returned (s', lr_after lr (lr_decay args)
                       (length (epoch_batches (batch_size args) data)))).
Proof.
  intros Hg He Hint Hmod Hall.
  destruct (train_loop_one_device _ Hg Hall s lr []) as (s' & ls & Hloop & _).
  exists s'. unfold epoch_body, init_block, save_block.
  rewrite decide_False; [|done]. cbn [bind ret]. rewrite Hloop. cbn [bind].
  rewrite decide_False; [|done]. rewrite decide_False; [|done].
  simpl. by rewrite !app_nil_r.
Qed.

(** ** Failures of the first epoch *)

Lemma train_py_init_failure (data : tensor4) (s0 : Session O) (e : exn) :
  (0 ≤ init_batch_size args)%Z → (0 ≤ batch_size args)%Z →
  (1 ≤ nr_gpu args)%Z → (1 ≤ max_epochs args)%Z →
  init_block'' 0 (epoch_batches (batch_size args) data) s0
    = ([EvInitializer], Raised e) →
  train_py'' data s0 = ([EvInitializer], Raised e).
Proof.
  intros Hib Hb Hg He Hinit. unfold train_py, build_graph.
  rewrite decide_False; [|lia]. rewrite decide_False; [|lia].
  unfold py_range.
  destruct (Z.to_nat (max_epochs args)) as [|m] eqn:Hm; [lia|].
  cbn [seq for_prog]. unfold epoch_body at 1. rewrite Hinit. done.
Qed.


(** X10. When the first batch of the stream does not have exactly
    [init_batch_size] examples (restore flag off, valid graph, at least one
    epoch), the script runs the variable initializer and then fails with
    the ValueError of feeding [x_init]: the init pass and the training never
    run. *)
Theorem init_batch_size_mismatch (data : tensor4) (s0 : Session O)
    (d : tensor4) (rest : list tensor4) :
  load_params args = false →
  (0 ≤ init_batch_size args)%Z → (0 ≤ batch_size args)%Z →
  (1 ≤ nr_gpu args)%Z → (1 ≤ max_epochs args)%Z →
  epoch_batches (batch_size args) data = d :: rest →
  Z.of_nat (length d) ≠ init_batch_size args →
  train_py'' data s0 = ([EvInitializer], Raised ValueError).
Proof.
  intros Hload Hib Hb Hg He Hit Hlen.
  apply train_py_init_failure; [done..|].
  rewrite Hit. unfold init_block.
  destruct (decide (0%nat = 0%nat)); [|done]. rewrite Hload. simpl.
  destruct (feed_ok (init_batch_size args) (scale_input d)) eqn:Hfeed; [|done].
  apply feed_ok_length in Hfeed. unfold scale_input in Hfeed.
  rewrite length_map in Hfeed. done.
Qed.

(** The save block of epoch 0 when nothing can be saved. *)
Lemma save_block_start_failure (s : Session O) :
  (save_interval args = 0%Z → save_block'' 0 s = ([], Raised ZeroDivisionError))
  ∧ (save_interval args ≠ 0%Z → (num_samples args ≤ 0)%Z →
     save_block'' 0 s = ([], Raised ValueError)).
Proof.
  unfold save_block. split.
  - intros ->. done.
  - intros Hint Hn. pose proof (Z.mod_0_l (save_interval args) Hint) as Hm.
    change (Z.of_nat 0) with 0%Z. repeat case_decide; try done.
    unfold py_range. replace (Z.to_nat (num_samples args)) with 0%nat by lia.
    done.
Qed.

(** X11. When the save interval is 0 or the number of sample batches is not
    positive, the save block of epoch 0 raises before its first write
    (ZeroDivisionError from the modulo, resp. ValueError from
    [np.concatenate] of no array); so with at least one epoch the script
    never returns normally and never writes a file. *)
Theorem nothing_saved (data : tensor4) (s0 : Session O) :
  (save_interval args = 0%Z ∨ (num_samples args ≤ 0)%Z) →
  (1 ≤ max_epochs args)%Z →
  (∀ s : Session O, save_interval args = 0%Z →
        save_block'' 0 s = ([], Raised ZeroDivisionError))
  ∧ (∀ s : Session O, save_interval args ≠ 0%Z →
          save_block'' 0 s = ([], Raised ValueError))
  ∧ (∃ e, (train_py'' data s0).2 = Raised e)
  ∧ Forall (λ e, is_file_write e = false) (train_py'' data s0).1.
Proof.
  intros Hcfg He.
  assert (∀ s : Session O, ∃ e, save_block'' 0 s = ([], Raised e)) as Hsave.
  { intros s. destruct (save_block_start_failure s) as [Hz Hn].
    destruct (decide (save_interval args = 0%Z)) as [H0|H0].
    - eexists. by apply Hz.
    - eexists. apply Hn; [done|]. by destruct Hcfg. }
  split; [intros s; apply save_block_start_failure|].
  split.
  { intros s Hint. apply save_block_start_failure; [done|]. by destruct Hcfg. }
  assert (∀ st, (∃ e, (epoch_body'' data 0 st).2 = Raised e)
                ∧ Forall (λ e, is_file_write e = false) (epoch_body'' data 0 st).1)
    as Hepoch.
  { intros [s lr]. unfold epoch_body.
    assert (Forall (λ e, is_file_write e = false)
              (init_block'' 0 (epoch_batches (batch_size args) data) s).1) as Ht0.
    { destruct (init_block_cases initial_values data_dependent_init checkpoint
                  args 0 (epoch_batches (batch_size args) data) s)
        as [[_ ->]|[(_ & _ & ->)|(_ & _ & [[e ->]|(d & rest & s' & _ & _ & ->)])]];
        repeat constructor. }
    destruct (init_block'' 0 (epoch_batches (batch_size args) data) s)
      as [t0 [[it s1]|e0]]; cbn [bind fst snd] in *; [|split; [by eexists|done]].
    pose proof (events_for_prog (λ e, is_file_write e = false) train_batch'' it
                  (λ d st, train_batch_events model_spec loss_fun tf_gradients
                             adam_updates args _ d st (λ _ _, eq_refl))
                  (s1, lr, [])) as Htrain.
    destruct (for_prog train_batch'' it (s1, lr, [])) as [t1 [[[s2 lr'] ls]|e1]];
      cbn [bind fst snd] in *.
    - destruct (Hsave s2) as [e2 ->]. cbn [bind fst snd].
      split; [by eexists|]. rewrite !app_nil_r. by apply Forall_app.
    - split; [by eexists|]. by apply Forall_app. }
  unfold train_py, build_graph.
  destruct (decide _); [split; [by eexists|constructor]|].
  destruct (decide _); [split; [by eexists|constructor]|].
  unfold py_range.
  destruct (Z.to_nat (max_epochs args)) as [|m] eqn:Hm; [lia|].
  cbn [seq for_prog bind ret].
  destruct (Hepoch (s0, learning_rate args)) as [[e Hout] Hev].
  destruct (epoch_body'' data 0 (s0, learning_rate args)) as [t r].
  simpl in Hout, Hev. subst r. cbn [bind]. split; [by eexists|done].
Qed.
End EpochFacts.

Lemma plain_epoch_one_device_witness :
  ∃ s', epoch_body stub_model_spec stub_sample stub_loss stub_gradients stub_adam
          stub_initial stub_init stub_checkpoint two_epoch_args (blank_images 4) 1
          (stub_session, 1 # 1000)
    = (imap (λ k d, EvTrain (lr_after (1 # 1000) (lr_decay two_epoch_args) (S k))
                      [scale_input d])
         (epoch_batches (batch_size two_epoch_args) (blank_images 4)),
       Returned (s', lr_after (1 # 1000) (lr_decay two_epoch_args)
                       (length (epoch_batches (batch_size two_epoch_args)
                                  (blank_images 4))))).
Proof.
  apply (plain_epoch_one_device stub_model_spec stub_sample stub_loss
           stub_gradients stub_adam stub_initial stub_init stub_checkpoint
           two_epoch_args (blank_images 4) 1 stub_session (1 # 1000)).
  - reflexivity.
  - discriminate.
  - vm_compute. discriminate.
  - vm_compute. discriminate.
  - assert (epoch_batches (batch_size two_epoch_args) (blank_images 4)
            = [blank_images 2; blank_images 2]) as -> by (vm_compute; reflexivity).
    repeat constructor.
Defined.


Lemma init_batch_size_mismatch_witness :
  stub_train_py mismatch_args (blank_images 4) = ([EvInitializer], Raised ValueError).
Proof.
  apply (init_batch_size_mismatch stub_model_spec stub_sample stub_loss
           stub_gradients stub_adam stub_initial stub_init stub_checkpoint
           mismatch_args (blank_images 4) stub_session
           (blank_images 2) [blank_images 2]).
  - reflexivity.
  - vm_compute. discriminate.
  - vm_compute. discriminate.
  - vm_compute. discriminate.
  - vm_compute. discriminate.
  - vm_compute. reflexivity.
  - vm_compute. discriminate.
Defined.

Lemma nothing_saved_witness :
  (∃ e, (stub_train_py no_save_args (blank_images 2)).2 = Raised e)
  ∧ Forall (λ e, is_file_write e = false) (stub_train_py no_save_args (blank_images 2)).1.
Proof.
  destruct (nothing_saved stub_model_spec stub_sample stub_loss
              stub_gradients stub_adam stub_initial stub_init stub_checkpoint
              no_save_args (blank_images 2) stub_session)
    as (_ & _ & Hraise & Hquiet).
  - left. reflexivity.
  - vm_compute. discriminate.
  - split; [exact Hraise|exact Hquiet].
Defined.

(** ** More on the sampler (lines 154-161) *)

Lemma has_shape_concat (b h w c : nat) (xs : list tensor4) :
  Forall (λ x, has_shape b h w c x) xs →
  has_shape (length xs * b) h w c (concat xs).
Proof.
  induction 1 as [|x xs Hx _ IH]; cbn [concat length].
  - apply has_shape_spec. split; [done|]. by intros bi im Him.
  - apply has_shape_spec in Hx as [Hlx Himx].
    apply has_shape_spec in IH as [Hlc Himc].
    apply has_shape_spec. split; [rewrite length_app; lia|].
    intros bi im Him. apply lookup_app_Some in Him as [Him|[_ Him]].
    + by apply (Himx bi).
    + by apply (Himc (bi - length x)%nat).
Qed.

Lemma raster_length (h w : nat) : length (raster h w) = (h * w)%nat.
Proof. by rewrite -(length_map (raster_rank w)) raster_ranks length_seq. Qed.

Section SamplerMore.
Context {D O : Type}.
Variable model_spec : params → tensor4 → bool → Q → ModelOpt → nat → D.
Variable sample_from_discretized_mix_logistic : D → Z → nat → nat → tensor4.
Variable args : Args.

Abbreviation step' := (sample_step model_spec sample_from_discretized_mix_logistic args).
Abbreviation node' := (new_x_gen_node model_spec sample_from_discretized_mix_logistic args).

(** The session after a run of steps: same variables, one more run per
    step. *)
Lemma steps_session (ps : list (nat * nat)) :
  ∀ (x_gen x_gen' : list tensor4) (s s' : Session O),
    for_each (λ p, step' p.1 p.2) ps (x_gen, s) = Some (x_gen', s') →
    live s' = live s ∧ shadow s' = shadow s ∧ opt_slots s' = opt_slots s
    ∧ tick s' = (tick s + length ps)%nat.
Proof.
  induction ps as [|[yi xi] ps IH]; intros x_gen x_gen' s s' Hrun.
  - injection Hrun as <- <-. simpl. repeat split; lia.
  - cbn [for_each fst snd] in Hrun.
    destruct (step' yi xi (x_gen, s)) as [[x1 s1]|] eqn:Hstep; [|done].
    cbn [mbind option_bind] in Hrun.
    destruct (IH _ _ _ _ Hrun) as (Hl & Hsh & Ho & Ht).
    unfold sample_step, run_new_x_gen in Hstep.
    destruct (for_each _ _ x_gen); simpl in Hstep; [|done].
    injection Hstep as <- <-. simpl in *. repeat split; try done. lia.
Qed.

(** Without a device the loops run on no canvas. *)
Lemma sample_step_no_device (yi xi : nat) (s : Session O) :
  (nr_gpu args ≤ 0)%Z →
  step' yi xi ([], s)
  = Some ([], mkSession (live s) (shadow s) (opt_slots s) (S (tick s))).
Proof.
  intros Hg. unfold sample_step, run_new_x_gen, py_range.
  by replace (Z.to_nat (nr_gpu args)) with 0%nat by lia.
Qed.

Lemma steps_no_device (ps : list (nat * nat)) :
  (nr_gpu args ≤ 0)%Z →
  ∀ s : Session O, ∃ s', for_each (λ p, step' p.1 p.2) ps ([], s) = Some ([], s').
Proof.
  intros Hg. induction ps as [|[yi xi] ps IH]; intros s; [by eexists|].
  cbn [for_each fst snd]. rewrite sample_step_no_device; [|done].
  cbn [mbind option_bind]. apply IH.
Qed.

(** X14. [sample_from_model] fails when the batch size is negative (the
    ValueError of [np.zeros]) and when there is no device (the ValueError
    of [np.concatenate] on an empty list, raised only after all the passes
    over the raster positions). *)
Theorem sample_from_model_failures (shape : nat * nat * nat) (s : Session O) :
  (batch_size args < 0)%Z ∨ (nr_gpu args ≤ 0)%Z →
  sample_from_model_shape model_spec sample_from_discretized_mix_logistic args
    shape s = None.
Proof.
  intros Hcfg. destruct shape as [[h w] c].
  unfold sample_from_model_shape, initial_canvas.
  destruct (decide (batch_size args < 0)%Z) as [Hb|Hb]; [done|].
  destruct Hcfg as [Hneg|Hg]; [done|].
  replace (Z.to_nat (nr_gpu args)) with 0%nat by lia.
  cbn [replicate mbind option_bind]. unfold sample_loop.
  rewrite for_each_nested.
  destruct (steps_no_device (flat_map (λ y, map (pair y) (seq 0 w)) (seq 0 h)) Hg s)
    as [s' ->].
  done.
Qed.

(** The static shape of the placeholders and of the sampling nodes. *)
Variables b h w c : nat.
Hypothesis node_shape :
  ∀ i (s : Session O) x, has_shape b h w c x → has_shape b h w c (node' i s x).


(** X12. With at least one device and a nonnegative batch size,
    [sample_from_model] returns a batch of [nr_gpu * batch_size] images of
    the observation shape; it makes one session run per raster position
    and leaves the live parameters, the shadow parameters and the optimizer
    slots as they were. *)
Theorem sample_from_model_result (s : Session O) :
  Z.of_nat b = batch_size args → (1 ≤ nr_gpu args)%Z →
  ∃ x s',
    sample_from_model_shape model_spec sample_from_discretized_mix_logistic args
      (h, w, c) s = Some (x, s')
    ∧ has_shape (Z.to_nat (nr_gpu args) * b) h w c x
    ∧ live s' = live s ∧ shadow s' = shadow s ∧ opt_slots s' = opt_slots s
    ∧ tick s' = (tick s + h * w)%nat.
Proof.
  intros Hb Hg. unfold sample_from_model_shape, initial_canvas.
  rewrite decide_False; [|lia]. cbn [mbind option_bind].
  unfold sample_loop. rewrite for_each_nested. fold (raster h w).
  replace (Z.to_nat (batch_size args)) with b by lia.
  destruct (steps_frame model_spec sample_from_discretized_mix_logistic args
              b h w c node_shape (raster h w)
              (replicate (Z.to_nat (nr_gpu args)) (np_zeros b h w c)) s)
    as (xf & sf & Hrun & Hlen & Hsh & _).
  { by rewrite length_replicate. }
  { intros i x [-> _]%lookup_replicate. apply np_zeros_shape. }
  { apply Forall_forall. intros [yi xi] Hin. by apply raster_elem. }
  rewrite Hrun. cbn [mbind option_bind].
  destruct (steps_session _ _ _ _ _ Hrun) as (Hl & Hs & Ho & Ht).
  rewrite raster_length in Ht.
  destruct xf as [|x0 xf]; [simpl in Hlen; lia|].
  eexists _, sf. split; [reflexivity|]. split; [|done].
  rewrite -Hlen. apply has_shape_concat.
  apply Forall_lookup. intros i x Hi. by apply (Hsh i).
Qed.

(** X13. The sampler is autoregressive on final values: at the step for a
    position, the canvas fed to the network already holds, at every earlier
    position of the raster, the value found there in the final output; and
    the final output at the position is the pixel sampled at that step. *)
Theorem sampler_autoregressive (s : Session O)
    (done : list (nat * nat)) (p : nat * nat) (todo : list (nat * nat)) :
  Z.of_nat b = batch_size args →
  raster h w = done ++ p :: todo →
  ∃ cv s1 final sf,
    for_each (λ q, step' q.1 q.2) done
      (replicate (Z.to_nat (nr_gpu args)) (np_zeros b h w c), s) = Some (cv, s1)
    ∧ sample_loop model_spec sample_from_discretized_mix_logistic args (h, w, c)
        (replicate (Z.to_nat (nr_gpu args)) (np_zeros b h w c), s)
      = Some (final, sf)
    ∧ (∀ i bi q, q ∈ done → canvas_pixel cv i bi q = canvas_pixel final i bi q)
    ∧ (∀ i bi x, cv !! i = Some x →
         canvas_pixel final i bi p = pixel_at (node' i s1 x) bi p.1 p.2).
Proof.
  intros Hb Hsplit.
  pose proof (raster_NoDup h w) as Hnd.
  assert (Forall (λ q : nat * nat, (q.1 < h)%nat ∧ (q.2 < w)%nat) (raster h w))
    as Hrange.
  { apply Forall_forall. intros [yi xi] Hin. by apply raster_elem. }
  rewrite Hsplit in Hnd, Hrange.
  apply Forall_app in Hrange as [Hdone Hrest].
  inversion Hrest as [|? ? [Hp1 Hp2] Htodo]; subst.
  apply NoDup_app in Hnd as (_ & Hdisj & Hnd2).
  apply NoDup_cons in Hnd2 as [Hp_todo _].
  set (x0 := replicate (Z.to_nat (nr_gpu args)) (np_zeros b h w c)).
  destruct (steps_frame model_spec sample_from_discretized_mix_logistic args
              b h w c node_shape done x0 s)
    as (cv & s1 & Hrun & Hlen & Hsh & _).
  { subst x0. by rewrite length_replicate. }
  { intros i x [-> _]%lookup_replicate. apply np_zeros_shape. }
  { done. }
  destruct p as [yi xi]. simpl in Hp1, Hp2.
  destruct (sample_step_frame model_spec sample_from_discretized_mix_logistic args
              b h w c node_shape yi xi cv s1)
    as (cv' & Hstep & Hlen' & Hsh' & Hframe' & Hpos'); [done..|].
  destruct (steps_frame model_spec sample_from_discretized_mix_logistic args
              b h w c node_shape todo cv'
              (mkSession (live s1) (shadow s1) (opt_slots s1) (S (tick s1))))
    as (final & sf & Hrun2 & _ & _ & Hframe2); [done..|].
  exists cv, s1, final, sf. split; [exact Hrun|]. split.
  - unfold sample_loop. rewrite for_each_nested. fold (raster h w).
    rewrite Hsplit for_each_app. fold x0. rewrite Hrun.
    cbn [mbind option_bind for_each fst snd]. rewrite Hstep.
    cbn [mbind option_bind]. exact Hrun2.
  - split.
    + intros i bi q Hq. rewrite Hframe2.
      * rewrite Hframe'; [done|]. intros ->. apply (Hdisj (yi, xi)); [done|left].
      * intros Hqt. apply (Hdisj q); [done|by right].
    + intros i bi x Hi. rewrite Hframe2; [|done]. by apply Hpos'.
Qed.
End SamplerMore.

Lemma sample_from_model_failures_witness :
  sample_from_model_shape stub_model_spec stub_sample no_device_args
    (32, 32, 3)%nat stub_session = None.
Proof.
  apply (sample_from_model_failures stub_model_spec stub_sample no_device_args
           (32, 32, 3)%nat stub_session).
  right. vm_compute. discriminate.
Defined.

Lemma sample_from_model_result_witness :
  ∃ x s',
    sample_from_model_shape stub_model_spec stub_sample two_device_args
      (32, 32, 3)%nat stub_session = Some (x, s')
    ∧ has_shape 4 32 32 3 x
    ∧ live s' = [[1%Q]] ∧ shadow s' = [[2%Q]]
    ∧ tick s' = 1024%nat.
Proof.
  destruct (sample_from_model_result stub_model_spec stub_sample two_device_args
              2 32 32 3 (stub_node_shape _ 2 32 32 3) stub_session)
    as (x & s' & Hrun & Hshape & Hl & Hs & _ & Ht).
  - reflexivity.
  - vm_compute. discriminate.
  - exists x, s'. split; [exact Hrun|]. split; [exact Hshape|].
    split; [exact Hl|]. split; [exact Hs|exact Ht].
Defined.

Lemma sampler_autoregressive_witness :
  ∃ cv s1 final sf,
    for_each (λ q, sample_step stub_model_spec stub_sample one_device_args q.1 q.2)
      [(0, 0)%nat]
      (replicate (Z.to_nat (nr_gpu one_device_args)) (np_zeros 1 2 2 3), stub_session)
    = Some (cv, s1)
    ∧ sample_loop stub_model_spec stub_sample one_device_args (2, 2, 3)%nat
        (replicate (Z.to_nat (nr_gpu one_device_args)) (np_zeros 1 2 2 3), stub_session)
      = Some (final, sf)
    ∧ (∀ i bi q, q ∈ [(0, 0)%nat] →
         canvas_pixel cv i bi q = canvas_pixel final i bi q)
    ∧ (∀ i bi x, cv !! i = Some x →
         canvas_pixel final i bi (0, 1)%nat
         = pixel_at (new_x_gen_node stub_model_spec stub_sample one_device_args i s1 x)
             bi 0 1).
Proof.
  apply (sampler_autoregressive stub_model_spec stub_sample one_device_args
           1 2 2 3 (stub_node_shape _ 1 2 2 3) stub_session
           [(0, 0)%nat] (0, 1)%nat [(1, 0)%nat; (1, 1)%nat]).
  - reflexivity.
  - reflexivity.
Defined.

(** ** More on the aggregation (lines 140-147) *)

(** X15. The aggregation loop writes slot 0 only: with at least one device
    and gradient lists of one length it returns lists of the lengths it was
    given, in which every slot other than 0 holds what it held before; with
    one device the loop body never runs and nothing changes at all. *)
Theorem aggregate_frame {L G : Type} (addL : L → L → L) (addG : G → G → G) (D : Z)
    (loss_gen loss_gen_test : list L) (grads : list (list G)) (P : nat) :
  (1 ≤ D)%Z →
  length loss_gen = Z.to_nat D → length loss_gen_test = Z.to_nat D →
  length grads = Z.to_nat D →
  Forall (λ g : list G, length g = P) grads →
  ∃ lg lgt gs,
    aggregate addL addG D (loss_gen, loss_gen_test, grads) = Some (lg, lgt, gs)
    ∧ length lg = length loss_gen ∧ length lgt = length loss_gen_test
    ∧ length gs = length grads
    ∧ (∀ i, i ≠ 0%nat →
         lg !! i = loss_gen !! i ∧ lgt !! i = loss_gen_test !! i
         ∧ gs !! i = grads !! i)
    ∧ (D = 1%Z → lg = loss_gen ∧ lgt = loss_gen_test ∧ gs = grads).
Proof.
  intros HD Hlg Hlgt Hgs Hall.
  destruct (lookup_lt_is_Some_2 loss_gen 0) as [a Ha]; [lia|].
  destruct (lookup_lt_is_Some_2 loss_gen_test 0) as [at' Hat]; [lia|].
  destruct (lookup_lt_is_Some_2 grads 0) as [g00 Hg00]; [lia|].
  assert (length g00 = P) as HP.
  { rewrite Forall_lookup in Hall. by apply (Hall 0%nat). }
  pose proof (aggregate_loop addL addG P (Z.to_nat (D - 1)) 1
                loss_gen loss_gen_test grads a at' g00) as Hrun.
  unfold aggregate, py_range2.
  replace (Z.to_nat 1) with 1%nat by lia.
  rewrite Hrun; [|lia|lia|lia|lia|done|done|done|done|by apply Forall_drop].
  eexists _, _, _. split; [done|].
  rewrite !length_insert. split; [done|]. split; [done|]. split; [done|].
  split.
  - intros i Hi. by rewrite !list_lookup_insert_ne.
  - intros ->. change (Z.to_nat (1 - 1)) with 0%nat. rewrite !take_0. simpl.
    by rewrite !list_insert_id.
Qed.

(** Three devices with two gradients each. *)
Lemma aggregate_frame_witness :
  ∃ lg lgt gs,
    aggregate Z.add Z.add 3
      ([1; 2; 4]%Z, [10; 20; 40]%Z, [[1; 2]; [10; 20]; [100; 200]]%Z)
      = Some (lg, lgt, gs)
    ∧ lg !! 2%nat = Some 4%Z ∧ lgt !! 1%nat = Some 20%Z
    ∧ gs !! 2%nat = Some [100; 200]%Z.
Proof.
  destruct (aggregate_frame Z.add Z.add 3 [1; 2; 4]%Z [10; 20; 40]%Z
              [[1; 2]; [10; 20]; [100; 200]]%Z 2)
    as (lg & lgt & gs & Hrun & _ & _ & _ & Hframe & _).
  - lia.
  - reflexivity.
  - reflexivity.
  - reflexivity.
  - repeat constructor.
  - exists lg, lgt, gs. split; [exact Hrun|].
    destruct (Hframe 2%nat) as (H2 & _ & H2g); [discriminate|].
    destruct (Hframe 1%nat) as (_ & H1 & _); [discriminate|].
    rewrite H2 H1 H2g. repeat split.
Defined.



(** ** The training step (lines 147-150 and 208) *)

Section TrainStepFacts.
Context {D O : Type}.
Variable model_spec : params → tensor4 → bool → Q → ModelOpt → nat → D.
Variable loss_fun : tensor4 → D → Q.
Variable tf_gradients : (params → Q) → params → params.
Variable adam_updates : O → params → params → Q → Q → Q → O * params.
Variable args : Args.

Abbreviation run_train' := (run_train model_spec loss_fun tf_gradients adam_updates args).
Abbreviation loss_node' := (loss_gen_node model_spec loss_fun args).
Abbreviation grads_node' := (grads_node model_spec loss_fun tf_gradients args).


End TrainStepFacts.


(** ** Names of the sample files (lines 224 and 226) *)

Lemma string_app_inv_head (a b b' : string) : (a ++ b)%string = (a ++ b')%string → b = b'.
Proof. induction a as [|ch a IH]; simpl; [done|]. intros [= H]. by apply IH. Qed.

Lemma string_length_app (a b : string) :
  String.length (a ++ b) = (String.length a + String.length b)%nat.
Proof. induction a as [|ch a IH]; simpl; [done|]. by rewrite IH. Qed.

Lemma string_app_inv_tail (s : string) :
  ∀ a a' : string, (a ++ s)%string = (a' ++ s)%string → a = a'.
Proof.
  induction a as [|ch a IH]; intros [|ch' a'] H; simpl in H.
  - done.
  - apply (f_equal String.length) in H. simpl in H.
    rewrite string_length_app in H. lia.
  - apply (f_equal String.length) in H. simpl in H.
    rewrite string_length_app in H. lia.
  - injection H as -> H. f_equal. by apply IH.
Qed.

Lemma path_join_inj (a b b' : string) : path_join a b = path_join a b' → b = b'.
Proof.
  unfold path_join. destruct a as [|ch a]; [done|].
  destruct (ends_with_slash _); intros H.
  - by apply string_app_inv_head in H.
  - apply string_app_inv_head in H. by apply (string_app_inv_head "/") in H.
Qed.

(** ['%d' % n] of two different indices are different strings. *)
Lemma fmt_d_inj (n m : nat) : fmt_d n = fmt_d m → n = m.
Proof.
  unfold fmt_d. intros H.
  assert (∀ k, Nat.to_uint k ≠ Decimal.Nil) as Hnn.
  { intros k Hk. pose proof (DecimalNat.Unsigned.to_of (Nat.to_uint k)) as Hto.
    rewrite DecimalNat.Unsigned.of_to Hk in Hto. discriminate. }
  apply (f_equal NilZero.uint_of_string) in H.
  rewrite !NilZero.usu in H; [|apply Hnn..].
  injection H as H. by apply DecimalNat.Unsigned.to_uint_inj.
Qed.

Section SaveFacts.
Context {D O : Type}.
Variable model_spec : params → tensor4 → bool → Q → ModelOpt → nat → D.
Variable sample_from_discretized_mix_logistic : D → Z → nat → nat → tensor4.
Variable args : Args.

Abbreviation save_block''' := (save_block model_spec sample_from_discretized_mix_logistic args).

(** Every figure and every non-empty array file written by the save block
    of an epoch has the name built from that epoch's index. *)
Lemma save_block_names (epoch : nat) (s : Session O) :
  Forall (λ ev, match ev with
                | EvSavefig f =>
                    f = path_join (save_dir args)
                          ("Montezuma_sample" ++ fmt_d epoch ++ ".png")
                | EvSavez f (_ :: _) =>
                    f = path_join (save_dir args)
                          ("Montezuma_sample" ++ fmt_d epoch ++ ".npz")
                | _ => True
                end) (save_block''' epoch s).1.
Proof.
  unfold save_block.
  destruct (decide (save_interval args = 0%Z)); [constructor|].
  destruct (decide _); [|constructor].
  apply events_bind.
  { apply events_for_prog. intros k st. by apply sample_once_events. }
  intros [sx s'] _. apply events_bind; [apply events_lift|].
  intros x _. cbn. repeat constructor.
Qed.

(** X18. The sample files of two different epochs never have the same
    name: a figure written by the save block of one epoch is not written
    again by the save block of another epoch, and likewise for the array
    file that holds the generated batch. *)
Theorem sample_files_not_overwritten (e e' : nat) (s s' : Session O)
    (f : string) (x : tensor4) :
  e ≠ e' →
  (EvSavefig f ∈ (save_block''' e s).1 → EvSavefig f ∉ (save_block''' e' s').1)
  ∧ (EvSavez f [x] ∈ (save_block''' e s).1 →
     ∀ x' : tensor4, EvSavez f [x'] ∉ (save_block''' e' s').1).
Proof.
  intros Hne.
  pose proof (save_block_names e s) as H1.
  pose proof (save_block_names e' s') as H2.
  rewrite Forall_forall in H1. rewrite Forall_forall in H2.
  split.
  - intros Hin Hin'. apply H1 in Hin. apply H2 in Hin'. simpl in *.
    rewrite Hin in Hin'. apply path_join_inj in Hin'. injection Hin' as Hin'.
    apply (string_app_inv_tail ".png") in Hin'. by apply fmt_d_inj in Hin'.
  - intros Hin x' Hin'. apply H1 in Hin. apply H2 in Hin'. simpl in *.
    rewrite Hin in Hin'. apply path_join_inj in Hin'. injection Hin' as Hin'.
    apply (string_app_inv_tail ".npz") in Hin'. by apply fmt_d_inj in Hin'.
Qed.
End SaveFacts.

Lemma sample_files_not_overwritten_witness :
  EvSavefig "data/Montezuma_sample0.png"
    ∉ (save_block stub_model_spec stub_sample one_device_args 20 stub_session).1.
Proof.
  apply (sample_files_not_overwritten stub_model_spec stub_sample one_device_args
           0 20 stub_session stub_session "data/Montezuma_sample0.png" []).
  - discriminate.
  - apply (list_elem_of_lookup_2 _ 1%nat). vm_compute. reflexivity.
Defined.

(** ** The shadow parameters stay among the live values (lines 112-113) *)

Lemma ema_scalar_range (decay lo hi s v : Q) :
  (0 <= decay)%Q → (decay <= 1)%Q →
  (lo <= s)%Q ∧ (s <= hi)%Q → (lo <= v)%Q ∧ (v <= hi)%Q →
  (lo <= ema_scalar decay s v)%Q ∧ (ema_scalar decay s v <= hi)%Q.
Proof.
  intros Hd0 Hd1 [Hs1 Hs2] [Hv1 Hv2]. unfold ema_scalar.
  assert (0 <= decay * (s - lo))%Q by (apply Qmult_le_0_compat; lra).
  assert (0 <= (1 - decay) * (v - lo))%Q by (apply Qmult_le_0_compat; lra).
  assert (0 <= decay * (hi - s))%Q by (apply Qmult_le_0_compat; lra).
  assert (0 <= (1 - decay) * (hi - v))%Q by (apply Qmult_le_0_compat; lra).
  split; lra.
Qed.

Lemma ema_scalar_run_range (decay lo hi : Q) (vs : list Q) :
  (0 <= decay)%Q → (decay <= 1)%Q →
  Forall (λ v, (lo <= v)%Q ∧ (v <= hi)%Q) vs →
  ∀ s0, (lo <= s0)%Q ∧ (s0 <= hi)%Q →
    (lo <= ema_scalar_run decay s0 vs)%Q ∧ (ema_scalar_run decay s0 vs <= hi)%Q.
Proof.
  intros Hd0 Hd1 Hall. unfold ema_scalar_run.
  induction Hall as [|v vs Hv Hall IH]; intros s0 Hs0; [done|].
  cbn [fold_left]. apply IH. by apply ema_scalar_range.
Qed.

(** X19. For a decay between 0 and 1, one run of the averaging op puts
    every shadow scalar between the old shadow value and the live value;
    hence a shadow scalar that starts inside an interval holding all the
    live values it reads stays inside it after any number of runs. *)
Theorem ema_stays_in_range (decay lo hi : Q) :
  (0 <= decay)%Q → (decay <= 1)%Q →
  (∀ s v : Q,
      ((s <= v)%Q → (s <= ema_scalar decay s v)%Q ∧ (ema_scalar decay s v <= v)%Q)
      ∧ ((v <= s)%Q → (v <= ema_scalar decay s v)%Q ∧ (ema_scalar decay s v <= s)%Q))
  ∧ (∀ (shadow0 : params) (lives : list params) (p e : nat) (s0 : Q) (vs : list Q),
      cell p e shadow0 = Some s0 → mapM (cell p e) lives = Some vs →
      (lo <= s0)%Q ∧ (s0 <= hi)%Q →
      Forall (λ v, (lo <= v)%Q ∧ (v <= hi)%Q) vs →
      ∃ sN, cell p e (ema_run decay shadow0 lives) = Some sN
            ∧ (lo <= sN)%Q ∧ (sN <= hi)%Q).
Proof.
  intros Hd0 Hd1. split.
  - intros s v. split; intros Hsv; apply ema_scalar_range; try done;
      split; try done; apply Qle_refl.
  - intros shadow0 lives p e s0 vs Hs Hm Hs0 Hall.
    exists (ema_scalar_run decay s0 vs). split; [by apply cell_ema_run|].
    by apply ema_scalar_run_range.
Qed.

(** Decay 1/2, one parameter of two scalars, two runs, values in [4, 8]. *)
Lemma ema_stays_in_range_witness :
  ∃ sN, cell 0 1 (ema_run (1 # 2) [[0; 8]%Q] [[[4; 4]%Q]; [[2; 6]%Q]]) = Some sN
        ∧ (4 <= sN)%Q ∧ (sN <= 8)%Q.
Proof.
  destruct (ema_stays_in_range (1 # 2) 4 8) as [_ Hrun].
  - unfold Qle. simpl. lia.
  - unfold Qle. simpl. lia.
  - apply (Hrun [[0; 8]%Q] [[[4; 4]%Q]; [[2; 6]%Q]] 0%nat 1%nat 8%Q [4; 6]%Q).
    + reflexivity.
    + reflexivity.
    + split; unfold Qle; simpl; lia.
    + repeat constructor; unfold Qle; simpl; lia.
Defined.

(** ** The first epoch on one device (lines 186-209) *)

Section FirstEpoch.
Context {D O : Type}.
Variable model_spec : params → tensor4 → bool → Q → ModelOpt → nat → D.
Variable sample_from_discretized_mix_logistic : D → Z → nat → nat → tensor4.
Variable loss_fun : tensor4 → D → Q.
Variable tf_gradients : (params → Q) → params → params.
Variable adam_updates : O → params → params → Q → Q → Q → O * params.
Variable initial_values : O * params.
Variable data_dependent_init : params → tensor4 → Q → ModelOpt → params.
Variable checkpoint : string → Session O.
Variable args : Args.

Abbreviation save_block0 := (save_block model_spec sample_from_discretized_mix_logistic args).
Abbreviation epoch_body0 :=
  (epoch_body model_spec sample_from_discretized_mix_logistic loss_fun
     tf_gradients adam_updates initial_values data_dependent_init checkpoint args).

End FirstEpoch.


(** ** The save block on a well-shaped graph (lines 216-229) *)

Section SaveMore.
Context {D O : Type}.
Variable model_spec : params → tensor4 → bool → Q → ModelOpt → nat → D.
Variable sample_from_discretized_mix_logistic : D → Z → nat → nat → tensor4.
Variable args : Args.
Variable b : nat.
Hypothesis node_shape :
  ∀ i (s : Session O) x,
    has_shape b 32 32 3 x →
    has_shape b 32 32 3
      (new_x_gen_node model_spec sample_from_discretized_mix_logistic args i s x).


End SaveMore.

